(** * FINTARA letter-of-credit engine: a shallow embedding and its properties

    The development follows the JavaScript sources: [lc-generator.js]
    (validator, clause composer, fee calculator, amount in words) and the
    server module holding the rule engine [lcDecision], the MT700 renderer
    [generateMT700] and the discrepancy examiner [runDiscrepancyCheck].

    JavaScript numbers are IEEE-754 binary64 values; they are modelled by the
    primitive floats, whose operations are specified by [SpecFloat]. *)

From Stdlib Require Import ZArith QArith Qround Lia Bool List Ascii String.
From Stdlib Require Import DecimalString Floats.
From stdpp Require Import base option gmap strings.
Import ListNotations.

Set Warnings "-inexact-float".
#[local] Set Default Proof Using "Type".
#[local] Open Scope string_scope.

(* ===================================================================== *)
(** * Numbers *)
(* ===================================================================== *)

Module Num.

Definition number := float.

(** The number [m * 2^e], correctly rounded (exact when representable). *)
Definition of_scaled (m e : Z) : number :=
  SF2Prim (binary_normalize prec emax m e false).

Definition of_Z (z : Z) : number := of_scaled z 0.

Definition isNaN (x : number) : bool := negb (x =? x)%float.


(** [ToBoolean] on numbers: [0], [-0] and [NaN] are falsy. *)
Definition truthy (x : number) : bool :=
  negb (isNaN x) && negb (x =? 0)%float.

(** [a >= b] and [a > b] as JavaScript evaluates them. *)
Definition ge (a b : number) : bool := (b <=? a)%float.
Definition gt (a b : number) : bool := (b <? a)%float.
Definition lt (a b : number) : bool := (a <? b)%float.
Definition le (a b : number) : bool := (a <=? b)%float.


(** [Math.floor]: zeros, infinities and [NaN] are returned unchanged. *)
Definition Math_floor (x : number) : number :=
  match Prim2SF x with
  | S754_finite s m e =>
      if (0 <=? e)%Z then x
      else
        let q := Z.shiftr (if s then Z.neg m else Z.pos m) (- e) in
        if (q =? 0)%Z then 0%float else of_Z q
  | _ => x
  end.

(** [Math.ceil x] is [-Math.floor(-x)]. *)
Definition Math_ceil (x : number) : number := (- Math_floor (- x))%float.

(** [Math.round]: the nearest integer, ties towards [+Infinity]; the zero
    reached from a negative argument is [-0]. *)
Definition Math_round (x : number) : number :=
  match Prim2SF x with
  | S754_finite s m e =>
      if (0 <=? e)%Z then x
      else
        let n := if s then Z.neg m else Z.pos m in
        let q := Z.shiftr (2 * n + Z.shiftl 1 (- e)) (1 - e) in
        if (q =? 0)%Z then (if s then (-0)%float else 0%float) else of_Z q
  | _ => x
  end.

(** [Math.max(a, b)]: [NaN] if either is [NaN], else the larger. *)
Definition Math_max (a b : number) : number :=
  if isNaN a || isNaN b then nan
  else if (a <? b)%float then b
  else if (b <? a)%float then a
  else match Prim2SF a with S754_zero true => b | _ => a end.


End Num.
Export Num.

(* ===================================================================== *)
(** * Strings *)
(* ===================================================================== *)

(** Strings are byte strings (UTF-8 for the few non-ASCII literals of the
    sources); case mapping and white space are those of the ASCII range. *)
Module Str.

Definition is_space (c : ascii) : bool :=
  let n := nat_of_ascii c in
  ((9 <=? n)%nat && (n <=? 13)%nat) || (n =? 32)%nat.

Definition is_digit (c : ascii) : bool :=
  let n := nat_of_ascii c in (48 <=? n)%nat && (n <=? 57)%nat.

Definition upper (c : ascii) : ascii :=
  let n := nat_of_ascii c in
  if (97 <=? n)%nat && (n <=? 122)%nat then ascii_of_nat (n - 32) else c.

Definition lower (c : ascii) : ascii :=
  let n := nat_of_ascii c in
  if (65 <=? n)%nat && (n <=? 90)%nat then ascii_of_nat (n + 32) else c.

Fixpoint map (f : ascii -> ascii) (s : string) : string :=
  match s with
  | EmptyString => EmptyString
  | String c r => String (f c) (map f r)
  end.

Definition toUpperCase : string -> string := map upper.
Definition toLowerCase : string -> string := map lower.

Fixpoint trimStart (s : string) : string :=
  match s with
  | String c r => if is_space c then trimStart r else s
  | EmptyString => EmptyString
  end.

(** [trimEnd]: a character is kept when it is not a space or when something
    is kept after it. *)
Fixpoint trimEnd (s : string) : string :=
  match s with
  | EmptyString => EmptyString
  | String c r =>
      match trimEnd r with
      | EmptyString => if is_space c then EmptyString else String c EmptyString
      | r' => String c r'
      end
  end.

Definition trim (s : string) : string := trimEnd (trimStart s).

Fixpoint startsWith (p s : string) : bool :=
  match p, s with
  | EmptyString, _ => true
  | String a p', String b s' => Ascii.eqb a b && startsWith p' s'
  | _, EmptyString => false
  end.

Fixpoint drop (n : nat) (s : string) : string :=
  match n, s with
  | S k, String _ r => drop k r
  | _, _ => s
  end.

Fixpoint includes (s p : string) : bool :=
  startsWith p s ||
  match s with
  | EmptyString => false
  | String _ r => includes r p
  end.

Fixpoint repeat (c : ascii) (n : nat) : string :=
  match n with
  | O => EmptyString
  | S k => String c (repeat c k)
  end.


End Str.

(* ===================================================================== *)
(** * Numbers to strings and back *)
(* ===================================================================== *)

Module NumStr.
Import Str.

Definition digits_of (z : Z) : string :=
  NilZero.string_of_uint (N.to_uint (Z.to_N z)).

Definition Qpow (b e : Z) : Q :=
  if (0 <=? e)%Z then inject_Z (b ^ e) else 1 # Z.to_pos (b ^ (- e)).

Definition Qlt_bool (x y : Q) : bool := negb (Qle_bool y x).

(** The least [n' >= n] with [x < 10^n']. *)
Fixpoint decade (fuel : nat) (n : Z) (x : Q) : Z :=
  match fuel with
  | O => n
  | S f => if Qlt_bool x (Qpow 10 n) then n else decade f (n + 1) x
  end.

Section Shortest.
Variables (m : positive) (e : Z).

Let x : Q := (inject_Z (Z.pos m) * Qpow 2 e)%Q.
Let up : Q := Qpow 2 (e - 1).
Let down : Q :=
  if Pos.eqb m (2 ^ 52) && (-1074 <? e)%Z then Qpow 2 (e - 2) else Qpow 2 (e - 1).

(** [y] reads back as [x]: it lies in the rounding interval of [x], whose
    end points belong to it when the mantissa is even. *)
Definition reads_back (y : Q) : bool :=
  if Z.even (Z.pos m)
  then Qle_bool (x - down)%Q y && Qle_bool y (x + up)%Q
  else Qlt_bool (x - down)%Q y && Qlt_bool y (x + up)%Q.

(** The decimal exponent: the least [n] with [x < 10^n], searched upwards
    from an estimate that the binary exponent gives. *)
Definition n0 : Z :=
  let l := (Z.log2 (Z.pos m) + e)%Z in
  decade 4 (l * 30103 / 100000 - 1) x.

(** The [k]-digit candidates on both sides of [x]; the closest one that
    reads back is chosen, the even one on a tie. *)
Definition candidate (k : Z) : option Z :=
  let scale := Qpow 10 (n0 - k) in
  let sl := Qfloor (x / scale)%Q in
  let sh := (sl + 1)%Z in
  match reads_back (inject_Z sl * scale)%Q, reads_back (inject_Z sh * scale)%Q with
  | true, true =>
      let dl := (x - inject_Z sl * scale)%Q in
      let dh := (inject_Z sh * scale - x)%Q in
      if Qlt_bool dl dh then Some sl
      else if Qlt_bool dh dl then Some sh
      else Some (if Z.even sl then sl else sh)
  | true, false => Some sl
  | false, true => Some sh
  | false, false => None
  end.

(** Digits [s], their number [k] and the decimal exponent [n] such that
    [s * 10^(n-k)] is the shortest decimal that reads back as [x]. *)
Fixpoint shortest_from (fuel : nat) (k : Z) : Z * Z * Z :=
  match fuel with
  | O => (0, 1, 0)%Z
  | S f =>
      match candidate k with
      | Some s => if (s =? 10 ^ k)%Z then (1, 1, n0 + 1)%Z else (s, k, n0)
      | None => shortest_from f (k + 1)
      end
  end.

Definition shortest : Z * Z * Z := shortest_from 17 1.
End Shortest.

Definition zeros (n : Z) : string := repeat "0" (Z.to_nat n).

Definition layout (s k n : Z) : string :=
  let d := digits_of s in
  if (k <=? n)%Z && (n <=? 21)%Z then d ++ zeros (n - k)
  else if (0 <? n)%Z && (n <=? 21)%Z then
    substring 0 (Z.to_nat n) d ++ "." ++ substring (Z.to_nat n) (Z.to_nat (k - n)) d
  else if (-6 <? n)%Z && (n <=? 0)%Z then "0." ++ zeros (- n) ++ d
  else
    let ex := (if (n - 1 <? 0)%Z then "-" else "+") ++ digits_of (Z.abs (n - 1)) in
    if (k =? 1)%Z then d ++ "e" ++ ex
    else substring 0 1 d ++ "." ++ substring 1 (Z.to_nat (k - 1)) d ++ "e" ++ ex.

(** [Number::toString(x)], radix 10. *)
Definition Number_toString (x : number) : string :=
  match Prim2SF x with
  | S754_nan => "NaN"
  | S754_zero _ => "0"
  | S754_infinity s => if s then "-Infinity" else "Infinity"
  | S754_finite sg m e =>
      let '(s, k, n) := shortest m e in
      (if sg then "-" else EmptyString) ++ layout s k n
  end.

(** The digits of [n] with a decimal point before the last [f] of them. *)
Definition fixed_layout (n : Z) (f : nat) : string :=
  let d := digits_of n in
  let d := if (String.length d <=? f)%nat then zeros (Z.of_nat (f + 1 - String.length d)) ++ d else d in
  let k := String.length d in
  if (f =? 0)%nat then d
  else substring 0 (k - f) d ++ "." ++ substring (k - f) f d.

(** [x.toFixed(f)]: the integer [n] with [n / 10^f] nearest to [|x|], the
    larger one on a tie; numbers of magnitude [1e21] and above are printed
    by [Number::toString]. *)
Definition Number_toFixed (x : number) (f : nat) : string :=
  match Prim2SF x with
  | S754_zero _ => fixed_layout 0 f
  | S754_finite sg m e =>
      if (1e21 <=? abs x)%float then Number_toString x
      else
        let p := (10 ^ Z.of_nat f)%Z in
        let n := if (0 <=? e)%Z then (Z.pos m * 2 ^ e * p)%Z
                 else ((2 * Z.pos m * p + 2 ^ (- e)) / 2 ^ (1 - e))%Z in
        (if sg then "-" else EmptyString) ++ fixed_layout n f
  | _ => Number_toString x
  end.

(** ** Decimal literals to numbers *)

Fixpoint take_digits (s : string) : string * string :=
  match s with
  | String c r =>
      if is_digit c then let '(d, t) := take_digits r in (String c d, t)
      else (EmptyString, s)
  | EmptyString => (EmptyString, EmptyString)
  end.

Fixpoint digits_value_from (acc : Z) (d : string) : Z :=
  match d with
  | EmptyString => acc
  | String c r => digits_value_from (10 * acc + Z.of_nat (nat_of_ascii c - 48)) r
  end.

Definition digits_value : string -> Z := digits_value_from 0.

(** The number nearest to [(-1)^neg * d * 10^p] (ties to even). *)
Definition of_decimal (neg : bool) (d p : Z) : number :=
  match d with
  | Z.pos dp =>
      let mag := (Z.of_nat (String.length (digits_of d)) + p)%Z in
      if (400 <? mag)%Z then (if neg then neg_infinity else infinity)
      else if (mag <? -400)%Z then (if neg then (-0)%float else 0%float)
      else if (0 <=? p)%Z then
        SF2Prim (binary_normalize prec emax (if neg then - (d * 10 ^ p) else d * 10 ^ p) 0 false)
      else
        let '(q, e', l) := SFdiv_core_binary prec emax d 0 (10 ^ (- p)) 0 in
        SF2Prim (binary_round_aux prec emax neg q e' l)
  | _ => if neg then (-0)%float else 0%float
  end.

(** The exponent part [e[+-]digits], when present and well formed. *)
Definition exponent_part (s : string) : Z :=
  match s with
  | String c r =>
      if Ascii.eqb c "e" || Ascii.eqb c "E" then
        let '(neg, r') :=
          match r with
          | String "-" t => (true, t)
          | String "+" t => (false, t)
          | _ => (false, r)
          end in
        let '(ed, _) := take_digits r' in
        match ed with
        | EmptyString => 0%Z
        | _ => if neg then (- digits_value ed)%Z else digits_value ed
        end
      else 0%Z
  | EmptyString => 0%Z
  end.

(** [parseFloat] on a string: leading white space is skipped and the longest
    prefix that is a decimal literal is converted; [NaN] when there is none. *)
Definition parseFloat_string (s : string) : number :=
  let s := trimStart s in
  let '(neg, s) :=
    match s with
    | String "-" t => (true, t)
    | String "+" t => (false, t)
    | _ => (false, s)
    end in
  if startsWith "Infinity" s then (if neg then neg_infinity else infinity)
  else
    let '(ip, r1) := take_digits s in
    let '(fp, r2) :=
      match r1 with
      | String "." t => take_digits t
      | _ => (EmptyString, r1)
      end in
    match ip ++ fp with
    | EmptyString => nan
    | ds => of_decimal neg (digits_value ds) (exponent_part r2 - Z.of_nat (String.length fp))
    end.

End NumStr.

(* ===================================================================== *)
(** * Values *)
(* ===================================================================== *)

Module JS.
Import Str NumStr.

(** The primitive values that reach the engine from a request body or a
    database row. *)
Inductive value :=
  | VUndefined
  | VNull
  | VBool (b : bool)
  | VNum (x : number)
  | VStr (s : string).

Definition ToBoolean (v : value) : bool :=
  match v with
  | VUndefined | VNull => false
  | VBool b => b
  | VNum x => truthy x
  | VStr s => negb (String.eqb s EmptyString)
  end.

(** [String(v)] *)
Definition ToString (v : value) : string :=
  match v with
  | VUndefined => "undefined"
  | VNull => "null"
  | VBool b => if b then "true" else "false"
  | VNum x => Number_toString x
  | VStr s => s
  end.

(** [a || b] *)
Definition or_else (a b : value) : value := if ToBoolean a then a else b.

(** [parseFloat(v)] parses [String(v)].  The string of a number reads back
    as that number, [-0] excepted, whose string is ["0"]; the other
    primitives print as words, which parse to [NaN]. *)
Definition parseFloat (v : value) : number :=
  match v with
  | VNum x => match Prim2SF x with S754_zero _ => 0%float | _ => x end
  | VStr s => parseFloat_string s
  | _ => nan
  end.

(** [x || d] on numbers, as in [parseFloat(v) || 5]. *)
Definition num_or (x d : number) : number := if truthy x then x else d.

(** The properties that every object literal inherits from
    [Object.prototype]; the [in] operator sees them. *)
Definition Object_prototype : list string :=
  [ "constructor"; "__defineGetter__"; "__defineSetter__"; "hasOwnProperty";
    "__lookupGetter__"; "__lookupSetter__"; "isPrototypeOf";
    "propertyIsEnumerable"; "toString"; "valueOf"; "__proto__";
    "toLocaleString" ].

(** What [obj[key]] finds in an object literal whose own properties are
    numbers. *)
Inductive property :=
  | Own (x : number)
  | Inherited
  | Missing.

Fixpoint own_property (key : string) (obj : list (string * number)) : option number :=
  match obj with
  | [] => None
  | (k, x) :: r => if String.eqb key k then Some x else own_property key r
  end.

Definition get_property (key : string) (obj : list (string * number)) : property :=
  match own_property key obj with
  | Some x => Own x
  | None => if existsb (String.eqb key) Object_prototype then Inherited else Missing
  end.

(** [key in obj] *)
Definition has_property (key : string) (obj : list (string * number)) : bool :=
  match get_property key obj with
  | Missing => false
  | _ => true
  end.

End JS.

(* ===================================================================== *)
(** * Step 9: the rule engine *)
(* ===================================================================== *)

Module Decision.
Import Str NumStr JS.

Definition COLLATERAL_MARGINS : list (string * number) :=
  [ ("FD", 0.00); ("LIQUID_SECURITY", 0.15); ("GOVT_BOND", 0.10);
    ("CASH", 0.00); ("PROPERTY", 0.40); ("MACHINERY", 0.50);
    ("RECEIVABLES", 0.25) ]%float.

Inductive decision_t := YES | REVIEW | NO.

Definition decision_text (d : decision_t) : string :=
  match d with YES => "YES" | REVIEW => "REVIEW" | NO => "NO" end.

(** The [margin] field of the result: [null], a haircut of the table, or an
    inherited member of the table object. *)
Inductive margin_t :=
  | margin_null
  | margin_num (x : number)
  | margin_object.

Record result := {
  decision : decision_t;
  reason : string;
  margin : margin_t;
  eligibleValue : number
}.

Definition lcDecision (collateralType : string) (collateralValue lcAmount : number) : result :=
  if negb (has_property collateralType COLLATERAL_MARGINS) then
    {| decision := REVIEW;
       reason := "Unknown collateral type: " ++ collateralType ++ ". Manual review required.";
       margin := margin_null;
       eligibleValue := 0%float |}
  else
    let '(margin, margin_number) :=
      match get_property collateralType COLLATERAL_MARGINS with
      | Own x => (margin_num x, x)
      | _ => (margin_object, nan)
      end in
    let eligibleValue := (collateralValue * (1 - margin_number))%float in
    let decision :=
      if ge eligibleValue lcAmount then YES
      else if ge eligibleValue (lcAmount * 0.75)%float then REVIEW
      else NO in
    let reason :=
      match decision with
      | YES => "Collateral sufficient. Eligible value " ++ Number_toFixed eligibleValue 2
               ++ " ≥ LC Amount " ++ Number_toString lcAmount ++ "."
      | REVIEW => "Collateral partially covers LC. Eligible " ++ Number_toFixed eligibleValue 2
                  ++ " is 75-100% of LC Amount " ++ Number_toString lcAmount
                  ++ ". Manual review advised."
      | NO => "Insufficient collateral. Eligible value " ++ Number_toFixed eligibleValue 2
              ++ " < LC Amount " ++ Number_toString lcAmount ++ "."
      end in
    {| decision := decision; reason := reason; margin := margin;
       eligibleValue := eligibleValue |}.

(** The order of the outcomes: [NO < REVIEW < YES]. *)
Definition rank (d : decision_t) : nat :=
  match d with NO => 0 | REVIEW => 1 | YES => 2 end.

End Decision.

(* ===================================================================== *)
(** * The surroundings of a call *)
(* ===================================================================== *)

Module Env.

(** What a call reads from outside the program: the current time, in
    milliseconds, its two renderings used by the renderers
    ([toISOString()] and [toLocaleString('en-IN')]), and the parser behind
    [new Date(text)], whose result is the time value or [NaN]. *)
Record env := {
  now : number;
  now_iso : string;
  now_locale : string;
  Date_parse : string -> number
}.

End Env.
Export Env.

(* ===================================================================== *)
(** * lc-generator.js: the application record *)
(* ===================================================================== *)

Module App.
Import Str JS.

(** The application as the generator receives it: text columns hold a
    string or [null], numeric columns a value. *)
Record application := {
  applicantName : option string;
  beneficiaryName : option string;
  lcAmount : value;
  lcCurrency : option string;
  lcExpiryDate : option string;
  portLoading : option string;
  portDischarge : option string;
  goodsDesc : option string;
  paymentTerms : option string;
  issuingBank : option string;
  latestShipDate : option string;
  tolerancePct : value;
  confirmingBank : option string
}.

Definition text (o : option string) : value :=
  match o with
  | Some s => VStr s
  | None => VNull
  end.


(** A text field is truthy when it holds a non-empty string. *)
Definition filled (o : option string) : bool := ToBoolean (text o).

(** [o || d] on a text field. *)
Definition text_or (o : option string) (d : string) : string :=
  match o with
  | Some s => if String.eqb s EmptyString then d else s
  | None => d
  end.

End App.

(* ===================================================================== *)
(** * Section 1: the mandatory field validator *)
(* ===================================================================== *)

Module Validator.
Import Str NumStr JS App.











End Validator.

(* ===================================================================== *)
(** * Section 2: the clause generator (tolerance clause) *)
(* ===================================================================== *)

Module Clauses.
Import Str NumStr JS App.

(** [const tol = parseFloat(d.tolerancePct || 5)] *)
Definition tol (d : application) : number :=
  parseFloat (or_else (tolerancePct d) (VNum 5%float)).

Definition tolerance_stated (t : number) : string :=
  "Tolerance Clause: A tolerance of " ++ Number_toString t ++ "% more or "
  ++ Number_toString t
  ++ "% less in both the unit price and quantity of goods described herein is acceptable, provided the total drawing amount does not exceed the face value of this documentary credit. This tolerance applies per UCP 600 Article 30.".

Definition tolerance_none : string :=
  "Tolerance Clause: NO tolerance is permitted. The amount drawn must be exactly equal to the LC face value. Partial drawings are subject to the partial shipment clause.".

(** The [toleranceClause] entry of the object [generateClauses] returns. *)
Definition toleranceClause (d : application) : string :=
  if gt (tol d) 0%float then tolerance_stated (tol d) else tolerance_none.

End Clauses.

(* ===================================================================== *)
(** * Section 2B: the fee and commission calculator *)
(* ===================================================================== *)

Module Fees.
Import Str NumStr JS.

Record band := {
  maxMonths : number;
  label : string;
  minRate : number;
  maxRate : number;
  midRate : number
}.

Record fixed_fee := {
  amount : number;
  fee_currency : string;
  fee_label : string
}.

Record schedule := {
  tenorBands : list band;
  advisingFee : fixed_fee;
  amendmentFee : fixed_fee;
  courierSwiftCharges : fixed_fee;
  negotiationFeePct : number;
  confirmationPremiumPct : number;
  gstRate : number
}.

Definition over_one_year : band :=
  {| maxMonths := 999; label := "Over 1 year";
     minRate := 0.60; maxRate := 2.50; midRate := 1.55 |}%float.

Definition FEE_SCHEDULE : schedule :=
  {| tenorBands :=
       [ {| maxMonths := 3; label := "Up to 3 months";
            minRate := 0.10; maxRate := 0.50; midRate := 0.30 |};
         {| maxMonths := 6; label := "Up to 6 months";
            minRate := 0.20; maxRate := 1.00; midRate := 0.60 |};
         {| maxMonths := 12; label := "Up to 1 year";
            minRate := 0.40; maxRate := 2.00; midRate := 1.20 |};
         over_one_year ]%float;
     advisingFee :=
       {| amount := 5000; fee_currency := "INR"; fee_label := "Advising Fee (Flat)" |}%float;
     amendmentFee :=
       {| amount := 2500; fee_currency := "INR";
          fee_label := "Amendment Fee (per amendment)" |}%float;
     courierSwiftCharges :=
       {| amount := 3500; fee_currency := "INR"; fee_label := "Courier / SWIFT Charges" |}%float;
     negotiationFeePct := 0.125;
     confirmationPremiumPct := 0.15;
     gstRate := 18 |}%float.

Definition round2 (n : number) : number := (Math_round (n * 100) / 100)%float.

Record line := {
  item : string;
  rate : string;
  line_amount : number;
  line_currency : string;
  type : string
}.

Record fee_result := {
  tenorMonths : number;
  tenorBand : string;
  commissionRange : string;
  appliedRate : number;
  currency : string;
  lcAmount : number;
  breakdown : list line;
  amendment : number * string * string;
  subtotal : number;
  gst_rate : number;
  gstAmount : number;
  grandTotal : number;
  totalVariableFees : number;
  totalFixedFees : number;
  note : string
}.

(** The length of a month in milliseconds, as the source writes it. *)
Definition month_ms : number := (1000 * 60 * 60 * 24 * 30.44)%float.

(** [tenorMonths]: [3] unless the expiry date is given and parses. *)
Definition tenor (E : env) (data : App.application) : number :=
  match App.lcExpiryDate data with
  | Some text =>
      if App.filled (Some text) && negb (isNaN (Date_parse E text)) then
        let diffMs := (Date_parse E text - now E)%float in
        Math_max 1%float (Math_ceil (diffMs / month_ms)%float)
      else 3%float
  | None => 3%float
  end.

(** [tenorBands.find(b => tenorMonths <= b.maxMonths) || tenorBands[last]] *)
Definition band_for (months : number) : band :=
  match List.find (fun b => le months (maxMonths b)) (tenorBands FEE_SCHEDULE) with
  | Some b => b
  | None => List.last (tenorBands FEE_SCHEDULE) over_one_year
  end.

Definition calculateLCFees (E : env) (data : App.application) : fee_result :=
  let amount := parseFloat (or_else (App.lcAmount data) (VNum 0%float)) in
  let currency := toUpperCase (App.text_or (App.lcCurrency data) "USD") in
  let tenorMonths := tenor E data in
  let band := band_for tenorMonths in
  let issuanceCommissionPct := midRate band in
  let issuanceCommission := (amount * issuanceCommissionPct / 100)%float in
  let negotiationFee := (amount * negotiationFeePct FEE_SCHEDULE / 100)%float in
  let hasConfirmation :=
    match App.confirmingBank data with
    | Some b => App.filled (Some b) && negb (String.eqb (trim b) EmptyString)
    | None => false
    end in
  let confirmationPremium :=
    if hasConfirmation then (amount * confirmationPremiumPct FEE_SCHEDULE / 100)%float
    else 0%float in
  let advisingFee := Fees.amount (Fees.advisingFee FEE_SCHEDULE) in
  let amendmentFee := Fees.amount (Fees.amendmentFee FEE_SCHEDULE) in
  let courierSwift := Fees.amount (courierSwiftCharges FEE_SCHEDULE) in
  let totalVariableFees := (issuanceCommission + negotiationFee + confirmationPremium)%float in
  let totalFixedFees := (advisingFee + courierSwift)%float in
  let gstOnVariable := (totalVariableFees * gstRate FEE_SCHEDULE / 100)%float in
  let gstOnFixed := (totalFixedFees * gstRate FEE_SCHEDULE / 100)%float in
  let totalFeesBeforeGST := (totalVariableFees + totalFixedFees)%float in
  let totalGST := (gstOnVariable + gstOnFixed)%float in
  let grandTotal := (totalFeesBeforeGST + totalGST)%float in
  {| tenorMonths := tenorMonths;
     tenorBand := label band;
     commissionRange :=
       Number_toString (minRate band) ++ "% – " ++ Number_toString (maxRate band) ++ "%";
     appliedRate := midRate band;
     currency := currency;
     lcAmount := amount;
     breakdown :=
       ([ {| item := "LC Issuance Commission";
             rate := Number_toString issuanceCommissionPct ++ "%";
             line_amount := round2 issuanceCommission;
             line_currency := currency; type := "variable" |};
          {| item := "Negotiation / Acceptance Fee";
             rate := Number_toString (negotiationFeePct FEE_SCHEDULE) ++ "%";
             line_amount := round2 negotiationFee;
             line_currency := currency; type := "variable" |} ]
        ++ (if hasConfirmation then
              [ {| item := "Confirmation Premium";
                   rate := Number_toString (confirmationPremiumPct FEE_SCHEDULE) ++ "%";
                   line_amount := round2 confirmationPremium;
                   line_currency := currency; type := "variable" |} ]
            else [])
        ++ [ {| item := "Advising Fee (Flat)"; rate := "Flat";
                line_amount := advisingFee; line_currency := "INR"; type := "fixed" |};
             {| item := "Courier / SWIFT Charges"; rate := "Flat";
                line_amount := courierSwift; line_currency := "INR"; type := "fixed" |} ])%list;
     amendment := (amendmentFee, "INR", "Per amendment, charged separately");
     subtotal := round2 totalFeesBeforeGST;
     gst_rate := gstRate FEE_SCHEDULE;
     gstAmount := round2 totalGST;
     grandTotal := round2 grandTotal;
     totalVariableFees := round2 totalVariableFees;
     totalFixedFees := round2 totalFixedFees;
     note := "Rates are indicative based on standard corporate schedule. Final rates subject to relationship pricing and credit assessment." |}.

End Fees.

(* ===================================================================== *)
(** * Utility: number to words *)
(* ===================================================================== *)

Module Words.
Import Str NumStr JS.






End Words.

(* ===================================================================== *)
(** * The server: database rows *)
(* ===================================================================== *)

Module Row.
Import Str JS.

(** A row of [lc_applications], with the columns the renderer and the
    examiner read.  Text columns hold a string or [NULL]; the two [REAL]
    columns hold whatever value was stored; [documents] is the array that
    [safeJSON(row.documents, [])] decodes. *)
Record row := {
  ref : option string;
  lc_type : option string;
  lc_currency : option string;
  lc_amount : value;
  lc_expiry_date : option string;
  lc_expiry_place : option string;
  tolerance_pct : value;
  latest_ship_date : option string;
  applicant_name : option string;
  applicant_address : option string;
  applicant_city : option string;
  applicant_country : option string;
  beneficiary_name : option string;
  beneficiary_address : option string;
  beneficiary_city : option string;
  beneficiary_country : option string;
  advising_bank : option string;
  payment_terms : option string;
  issuing_bank : option string;
  partial_shipments : option string;
  transhipment : option string;
  port_loading : option string;
  port_discharge : option string;
  goods_desc : option string;
  quantity : option string;
  unit_price : option string;
  hs_code : option string;
  country_origin : option string;
  incoterms : option string;
  documents : list string;
  additional_docs : option string;
  special_instructions : option string;
  confirming_bank : option string
}.

(** A row of [document_presentations]. *)
Record presentation := {
  invoice_amount : value;
  invoice_currency : option string;
  shipment_date : option string;
  shipment_port : option string;
  discharge_port : option string;
  commercial_invoice : option string;
  bill_of_lading : option string;
  packing_list : option string;
  certificate_of_origin : option string;
  insurance_cert : option string;
  inspection_cert : option string;
  weight_cert : option string;
  submitted_at : option string
}.

(** [o === s] *)
Definition equals (o : option string) (s : string) : bool :=
  match o with
  | Some t => String.eqb t s
  | None => false
  end.



End Row.

(* ===================================================================== *)
(** * Step 11: the MT700 draft generator *)
(* ===================================================================== *)

Module MT700.
Import Str NumStr JS App Row.



(** Reading the tags back from a message: a tag is what a line that begins
    with a colon carries up to its next colon. *)
Inductive scan_state :=
  | LineStart
  | InTag (seen : string)
  | InLine.

Fixpoint tags_from (st : scan_state) (s : string) : list string :=
  match s with
  | EmptyString => []
  | String c r =>
      if Ascii.eqb c (ascii_of_nat 10) then tags_from LineStart r
      else
        match st with
        | LineStart =>
            if Ascii.eqb c ":" then tags_from (InTag ":") r else tags_from InLine r
        | InTag seen =>
            if Ascii.eqb c ":" then (seen ++ ":") :: tags_from InLine r
            else tags_from (InTag (seen ++ String c EmptyString)) r
        | InLine => tags_from InLine r
        end
  end.


End MT700.

(* ===================================================================== *)
(** * The discrepancy review engine *)
(* ===================================================================== *)

Module Examiner.
Import Str NumStr JS App Row.

Inductive severity_t := MINOR | MAJOR | FATAL.

Definition severity_eqb (a b : severity_t) : bool :=
  match a, b with
  | MINOR, MINOR | MAJOR, MAJOR | FATAL, FATAL => true
  | _, _ => false
  end.

Record discrepancy := {
  field_name : string;
  lc_value : string;
  doc_value : string;
  severity : severity_t;
  rule_matched : string;
  description : string
}.

(** A text column inside a template literal: [null] prints as a word. *)
Definition shown (o : option string) : string := ToString (text o).

(** 1. Amount check with tolerance *)
Definition amount_check (lcApp : row) (docPresentation : presentation) : list discrepancy :=
  let lcAmt := num_or (parseFloat (lc_amount lcApp)) 0%float in
  let invoiceAmt := num_or (parseFloat (invoice_amount docPresentation)) 0%float in
  let tolerance := num_or (parseFloat (tolerance_pct lcApp)) 5%float in
  let maxAmt := (lcAmt * (1 + tolerance / 100))%float in
  let minAmt := (lcAmt * (1 - tolerance / 100))%float in
  if gt invoiceAmt maxAmt then
    [ {| field_name := "Invoice Amount";
         lc_value := shown (lc_currency lcApp) ++ " " ++ Number_toString lcAmt;
         doc_value := shown (invoice_currency docPresentation) ++ " " ++ Number_toString invoiceAmt;
         severity := MAJOR;
         rule_matched := "AMOUNT_EXCEEDS_TOLERANCE";
         description := "Invoice amount exceeds LC amount + " ++ Number_toString tolerance
                        ++ "% tolerance. Max allowed: " ++ Number_toFixed maxAmt 2 |} ]
  else if lt invoiceAmt (minAmt * 0.5)%float then
    [ {| field_name := "Invoice Amount";
         lc_value := shown (lc_currency lcApp) ++ " " ++ Number_toString lcAmt;
         doc_value := shown (invoice_currency docPresentation) ++ " " ++ Number_toString invoiceAmt;
         severity := MINOR;
         rule_matched := "AMOUNT_SIGNIFICANTLY_BELOW";
         description := "Invoice amount is significantly below LC amount." |} ]
  else [].

(** 2. Currency mismatch *)
Definition currency_check (lcApp : row) (docPresentation : presentation) : list discrepancy :=
  let lcCur := toUpperCase (text_or (lc_currency lcApp) EmptyString) in
  let docCur := toUpperCase (text_or (invoice_currency docPresentation) EmptyString) in
  if negb (String.eqb docCur EmptyString) && negb (String.eqb lcCur EmptyString)
     && negb (String.eqb docCur lcCur)
  then
    [ {| field_name := "Currency"; lc_value := lcCur; doc_value := docCur;
         severity := FATAL; rule_matched := "CURRENCY_MISMATCH";
         description := "Document currency does not match LC currency." |} ]
  else [].

(** 3. Late shipment *)
Definition shipment_check (E : env) (lcApp : row) (docPresentation : presentation)
    : list discrepancy :=
  match latest_ship_date lcApp, shipment_date docPresentation with
  | Some latest, Some shipped =>
      if filled (Some latest) && filled (Some shipped)
         && gt (Date_parse E shipped) (Date_parse E latest)
      then
        [ {| field_name := "Shipment Date"; lc_value := latest; doc_value := shipped;
             severity := MAJOR; rule_matched := "LATE_SHIPMENT";
             description := "Shipment date exceeds the latest allowed shipment date in the LC." |} ]
      else []
  | _, _ => []
  end.

(** 4 and 5. Port of loading and port of discharge *)
Definition port_check (field rule text : string) (lc doc : option string) : list discrepancy :=
  let lcPort := trim (toLowerCase (text_or lc EmptyString)) in
  let docPort := trim (toLowerCase (text_or doc EmptyString)) in
  if negb (String.eqb lcPort EmptyString) && negb (String.eqb docPort EmptyString)
     && negb (includes docPort lcPort) && negb (includes lcPort docPort)
  then
    [ {| field_name := field; lc_value := shown lc; doc_value := shown doc;
         severity := MAJOR; rule_matched := rule; description := text |} ]
  else [].

(** [k.split('/')[0]] *)
Fixpoint first_segment (s : string) : string :=
  match s with
  | EmptyString => EmptyString
  | String c r => if Ascii.eqb c "/" then EmptyString else String c (first_segment r)
  end.

Definition presentedFlags (docPresentation : presentation) : list (string * option string) :=
  [ ("Commercial Invoice", commercial_invoice docPresentation);
    ("Bill of Lading", bill_of_lading docPresentation);
    ("Packing List", packing_list docPresentation);
    ("Certificate of Origin", certificate_of_origin docPresentation);
    ("Insurance Certificate", insurance_cert docPresentation);
    ("Inspection Certificate", inspection_cert docPresentation);
    ("Weight/Measurement Certificate", weight_cert docPresentation) ].

(** 6. Missing required documents *)
Definition document_check (docPresentation : presentation) (doc : string) : list discrepancy :=
  match List.find
          (fun kf => includes (toLowerCase doc) (trim (first_segment (toLowerCase (fst kf)))))
          (presentedFlags docPresentation) with
  | Some (_, flag) =>
      if negb (filled flag) || equals flag "No" || equals flag EmptyString then
        [ {| field_name := "Document: " ++ doc; lc_value := "Required";
             doc_value := "Not Presented"; severity := MAJOR;
             rule_matched := "MISSING_DOCUMENT";
             description := "Required document " ++ String (ascii_of_nat 34) (doc
                            ++ String (ascii_of_nat 34) " was not presented.") |} ]
      else []
  | None => []
  end.

(** 7. Late presentation *)
Definition presentation_check (E : env) (docPresentation : presentation) : list discrepancy :=
  match shipment_date docPresentation, submitted_at docPresentation with
  | Some shipped, Some submitted =>
      if filled (Some shipped) && filled (Some submitted) then
        let daysDiff :=
          ((Date_parse E submitted - Date_parse E shipped) / (1000 * 60 * 60 * 24))%float in
        if gt daysDiff 21%float then
          [ {| field_name := "Presentation Period"; lc_value := "21 days max";
               doc_value := Number_toString (Math_round daysDiff) ++ " days";
               severity := FATAL; rule_matched := "LATE_PRESENTATION";
               description := "Documents presented more than 21 days after shipment date (UCP 600 violation)." |} ]
        else []
      else []
  | _, _ => []
  end.

Record summary_t := {
  overall : string;
  fatal : nat;
  major : nat;
  minor : nat;
  total : nat
}.

Definition count (s : severity_t) (ds : list discrepancy) : nat :=
  List.length (List.filter (fun d => severity_eqb (severity d) s) ds).

Definition runDiscrepancyCheck (E : env) (lcApp : row) (docPresentation : presentation)
    : list discrepancy * summary_t :=
  let discrepancies :=
    (amount_check lcApp docPresentation
     ++ currency_check lcApp docPresentation
     ++ shipment_check E lcApp docPresentation
     ++ port_check "Port of Loading" "PORT_MISMATCH"
          "Shipment port on B/L does not match LC port of loading."
          (port_loading lcApp) (shipment_port docPresentation)
     ++ port_check "Port of Discharge" "DISCHARGE_PORT_MISMATCH"
          "Discharge port on B/L does not match LC."
          (port_discharge lcApp) (discharge_port docPresentation)
     ++ List.concat (List.map (document_check docPresentation) (documents lcApp))
     ++ presentation_check E docPresentation)%list in
  let fatalCount := count FATAL discrepancies in
  let majorCount := count MAJOR discrepancies in
  let minorCount := count MINOR discrepancies in
  let overall :=
    if (0 <? fatalCount)%nat then "DISCREPANT"
    else if (0 <? majorCount)%nat then "DISCREPANT"
    else if (0 <? minorCount)%nat then "MINOR_DISCREPANCIES"
    else "COMPLIANT" in
  (discrepancies,
   {| overall := overall; fatal := fatalCount; major := majorCount;
      minor := minorCount; total := List.length discrepancies |}).

(** The discrepancies on a field with a severity. *)
Definition flagged (field : string) (s : severity_t) (ds : list discrepancy) : list discrepancy :=
  List.filter (fun d => String.eqb (field_name d) field && severity_eqb (severity d) s) ds.

End Examiner.

(* ===================================================================== *)
(** * Notions used to state the properties *)
(* ===================================================================== *)

Module DecisionSpec.

(** The haircut table as the specification lists it. *)
Definition haircut_table : list (string * number) :=
  [ ("FD", 0.00); ("CASH", 0.00); ("GOVT_BOND", 0.10); ("LIQUID_SECURITY", 0.15);
    ("RECEIVABLES", 0.25); ("PROPERTY", 0.40); ("MACHINERY", 0.50) ]%float.

(** A lower-case Latin letter occurs in the string. *)
Fixpoint has_lower (s : string) : bool :=
  match s with
  | EmptyString => false
  | String c r =>
      ((97 <=? nat_of_ascii c)%nat && (nat_of_ascii c <=? 122)%nat) || has_lower r
  end.

End DecisionSpec.

Module Samples.
Import JS App Row.

(** An application whose fields are all empty but the amount and the
    tolerance. *)
Definition application_of (amount tolerance : value) : application :=
  {| applicantName := None; beneficiaryName := None; lcAmount := amount;
     lcCurrency := None; lcExpiryDate := None; portLoading := None;
     portDischarge := None; goodsDesc := None; paymentTerms := None;
     issuingBank := None; latestShipDate := None; tolerancePct := tolerance;
     confirmingBank := None |}.

(** The first instant of 2026 (UTC), rendered for India; no date parses. *)
Definition new_year : env :=
  {| now := 1767225600000%float; now_iso := "2026-01-01T00:00:00.000Z";
     now_locale := "1/1/2026, 5:30:00 am"; Date_parse := fun _ => nan |}.

(** A credit of the given amount and tolerance, every other column empty. *)
Definition credit (amount tolerance : value) : row :=
  {| ref := Some "BRC-LC-2026-10001"; lc_type := None; lc_currency := Some "USD";
     lc_amount := amount; lc_expiry_date := None; lc_expiry_place := None;
     tolerance_pct := tolerance; latest_ship_date := None;
     applicant_name := None; applicant_address := None; applicant_city := None;
     applicant_country := None; beneficiary_name := None; beneficiary_address := None;
     beneficiary_city := None; beneficiary_country := None; advising_bank := None;
     payment_terms := None; issuing_bank := None; partial_shipments := None;
     transhipment := None; port_loading := None; port_discharge := None;
     goods_desc := None; quantity := None; unit_price := None; hs_code := None;
     country_origin := None; incoterms := None; documents := [];
     additional_docs := None; special_instructions := None; confirming_bank := None |}.

(** A presentation that only states the invoice amount. *)
Definition invoice (amount : value) : presentation :=
  {| invoice_amount := amount; invoice_currency := Some "USD"; shipment_date := None;
     shipment_port := None; discharge_port := None; commercial_invoice := None;
     bill_of_lading := None; packing_list := None; certificate_of_origin := None;
     insurance_cert := None; inspection_cert := None; weight_cert := None;
     submitted_at := None |}.


End Samples.

Module FeeSpec.
Import Fees.

(** The rate of the first band, in ascending order of its upper bound, that
    covers a tenor; the last band when none does. *)
Definition rate_for (months : number) : number :=
  if le months 3%float then 0.30%float
  else if le months 6%float then 0.60%float
  else if le months 12%float then 1.20%float
  else 1.55%float.

(** The grand total that the subtotal and a rate of 0.18 would give. *)
Definition with_gst (subtotal : number) : number :=
  round2 (subtotal + subtotal * 0.18)%float.

End FeeSpec.

Module ValidatorSpec.
Import JS App Validator.


End ValidatorSpec.

Module MT700Spec.
Import Str JS App Row MT700.

Definition LF : ascii := ascii_of_nat 10.

(** A string without line feed. *)
Fixpoint single_line (s : string) : bool :=
  match s with
  | EmptyString => true
  | String c r => negb (Ascii.eqb c LF) && single_line r
  end.

(** The state of the tag reader after a character and after a text. *)
Definition step (st : scan_state) (c : ascii) : scan_state :=
  if Ascii.eqb c LF then LineStart
  else
    match st with
    | LineStart => if Ascii.eqb c ":" then InTag ":" else InLine
    | InTag seen => if Ascii.eqb c ":" then InLine else InTag (seen ++ String c EmptyString)
    | InLine => InLine
    end.

Fixpoint state_after (st : scan_state) (s : string) : scan_state :=
  match s with
  | EmptyString => st
  | String c r => state_after (step st c) r
  end.

Definition line (o : option string) : bool :=
  match o with
  | Some s => single_line s
  | None => true
  end.




(** A text that neither carries nor starts a tag when met within a line. *)
Definition calm (v : string) : Prop :=
  tags_from InLine v = [] /\ state_after InLine v = InLine.

End MT700Spec.
(* ===================================================================== *)
(** * Rounding to binary64, as [SpecFloat] performs it *)
(* ===================================================================== *)

Module RoundSpec.
#[local] Open Scope Z_scope.

(** The round and sticky bits [rb], [sb] tell where the restainder [rest]
    lies with respect to half of the unit [P]. *)
Definition located (rb sb : bool) (rest P : Z) : Prop :=
  match rb, sb with
  | false, false => rest = 0
  | false, true => 0 < 2 * rest < P
  | true, false => 2 * rest = P
  | true, true => P < 2 * rest
  end.

(** The record [r] stands for the quotient of [A] by [P], with the position
    of the restainder. *)
Definition represents (r : shr_record) (A P : Z) : Prop :=
  0 <= shr_m r /\ 0 < P /\
  exists rest, A = shr_m r * P + rest /\ 0 <= rest < P /\ located (shr_r r) (shr_s r) rest P.

(** Rounding [A / P] to the nearest integer, ties to even. *)
Definition rne (A P : Z) : Z :=
  let m := A / P in
  let rest := A mod P in
  if 2 * rest <? P then m
  else if P <? 2 * rest then m + 1
  else if Z.even m then m else m + 1.

(** The last steps of [binary_round_aux]: a mantissa of 54 digits is
    halved, then zero, overflow and the finite case are told apart. *)
Definition renorm (q e : Z) : Z * Z :=
  if q =? 2 ^ 53 then (2 ^ 52, e + 1) else (q, e).

Definition finish (s : bool) (qe : Z * Z) : spec_float :=
  match fst qe with
  | 0 => S754_zero s
  | Z.pos p => if snd qe <=? emax - prec then S754_finite s p (snd qe) else S754_infinity s
  | Z.neg _ => S754_nan
  end.

(** The order of two results of [renorm], both under the same sign: by
    exponent first, then by mantissa. *)
Definition lexle (a b : Z * Z) : Prop :=
  snd a < snd b /\ 0 < fst b \/ snd a = snd b /\ fst a <= fst b.



End RoundSpec.


(* ===================================================================== *)
(** * Facts about binary64 comparison and arithmetic *)
(* ===================================================================== *)

Module FloatFacts.

Lemma SFcompare_antisym (x y : spec_float) :
  SFcompare y x = option_map CompOpp (SFcompare x y).
Proof.
  destruct x as [sx|sx| |sx mx ex], y as [sy|sy| |sy my ey]; simpl;
    try destruct sx; try destruct sy; try reflexivity.
  - rewrite (Z.compare_antisym ex ey).
    destruct (ex ?= ey)%Z; simpl; try reflexivity.
    now rewrite (Pos.compare_cont_antisym mx my Eq).
  - rewrite (Z.compare_antisym ex ey).
    destruct (ex ?= ey)%Z; simpl; try reflexivity.
    now rewrite (Pos.compare_cont_antisym mx my Eq).
Qed.

(** [x < y] holds exactly when the two are comparable and [y <= x] fails. *)
Lemma SFltb_SFleb (x y : spec_float) :
  SFltb x y = match SFcompare x y with Some _ => negb (SFleb y x) | None => false end.
Proof.
  unfold SFltb, SFleb. rewrite (SFcompare_antisym x y).
  destruct (SFcompare x y) as [[]|]; reflexivity.
Qed.

Lemma SFleb_comparable (x y : spec_float) :
  SFleb x y = true -> x <> S754_nan /\ y <> S754_nan.
Proof.
  unfold SFleb. destruct x, y; simpl; intros H; split; congruence.
Qed.

Lemma SFcompare_defined (x y : spec_float) :
  x <> S754_nan -> y <> S754_nan -> exists c, SFcompare x y = Some c.
Proof.
  destruct x, y; simpl; intros; try congruence; eauto.
Qed.

Lemma SFmul_nan_l (y : spec_float) : SF64mul S754_nan y = S754_nan.
Proof. destruct y; reflexivity. Qed.

Lemma SFmul_comm (x y : spec_float) : SF64mul x y = SF64mul y x.
Proof.
  destruct x as [sx|sx| |sx mx ex], y as [sy|sy| |sy my ey]; simpl;
    rewrite ?(xorb_comm sx sy); try reflexivity.
  now rewrite (Pos.mul_comm mx my), (Z.add_comm ex ey).
Qed.

Lemma mul_comm (x y : number) : (x * y)%float = (y * x)%float.
Proof. apply Prim2SF_inj. rewrite !mul_spec. apply SFmul_comm. Qed.

(** When [a <= e] fails although [a * c <= e] holds, [e < a]. *)
Lemma below_of_scaled (e a c : number) :
  ge e a = false -> ge e (a * c)%float = true -> lt e a = true.
Proof.
  unfold ge, lt. rewrite !leb_spec, ltb_spec, mul_spec. intros Hn Hs.
  apply SFleb_comparable in Hs as [Ha He].
  assert (Ha' : Prim2SF a <> S754_nan).
  { intros Hnan. apply Ha. rewrite Hnan. apply SFmul_nan_l. }
  rewrite SFltb_SFleb, Hn.
  destruct (SFcompare_defined _ _ He Ha') as [c' ->]. reflexivity.
Qed.

Lemma lt_not_ge (e a : number) : lt e a = true -> ge e a = false.
Proof.
  unfold ge, lt. rewrite leb_spec, ltb_spec, SFltb_SFleb.
  destruct (SFcompare (Prim2SF e) (Prim2SF a)); [|discriminate].
  now intros ->%negb_true_iff.
Qed.

End FloatFacts.

Module RoundFacts.

Lemma shr_1_nonneg (r : shr_record) : (0 <= shr_m r)%Z -> (0 <= shr_m (shr_1 r))%Z.
Proof.
  destruct r as [m rb sb]; simpl. destruct m as [|[p|p|]|p]; simpl; lia.
Qed.

Lemma iter_shr_nonneg (p : positive) (r : shr_record) :
  (0 <= shr_m r)%Z -> (0 <= shr_m (SpecFloat.iter_pos shr_1 p r))%Z.
Proof.
  revert r. induction p as [p IH|p IH|]; intros r Hr; simpl.
  - apply IH, IH, shr_1_nonneg, Hr.
  - apply IH, IH, Hr.
  - apply shr_1_nonneg, Hr.
Qed.

Lemma shr_fexp_nonneg (m e : Z) (l : location) :
  (0 <= m)%Z -> (0 <= shr_m (fst (shr_fexp prec emax m e l)))%Z.
Proof.
  intros Hm. unfold shr_fexp, shr.
  assert (H0 : (0 <= shr_m (shr_record_of_loc m l))%Z) by (destruct l as [|[]]; exact Hm).
  destruct (fexp prec emax (Zdigits2 m + e) - e)%Z; simpl; auto using iter_shr_nonneg.
Qed.

Lemma round_nearest_even_nonneg (m : Z) (l : location) :
  (0 <= m)%Z -> (0 <= round_nearest_even m l)%Z.
Proof.
  intros Hm. destruct l as [|[]]; simpl; try lia. destruct (Z.even m); lia.
Qed.

(** Rounding keeps the sign and never yields [NaN]. *)
Lemma binary_round_aux_sign (s : bool) (m e : Z) (l : location) :
  (0 <= m)%Z ->
  match binary_round_aux prec emax s m e l with
  | S754_zero s' | S754_infinity s' | S754_finite s' _ _ => s' = s
  | S754_nan => False
  end.
Proof.
  intros Hm. unfold binary_round_aux.
  pose proof (shr_fexp_nonneg m e l Hm) as H1.
  destruct (shr_fexp prec emax m e l) as [mrs' e']. simpl in H1.
  pose proof (shr_fexp_nonneg _ e' loc_Exact
                (round_nearest_even_nonneg _ (loc_of_shr_record mrs') H1)) as H2.
  destruct (shr_fexp prec emax _ e' loc_Exact) as [mrs'' e'']. simpl in H2.
  destruct (shr_m mrs'') as [|p|p]; try reflexivity; [|lia].
  destruct (e'' <=? emax - prec)%Z; reflexivity.
Qed.

End RoundFacts.

Module StringFacts.
Import Str.

Lemma append_assoc (a b c : string) : (a ++ b) ++ c = a ++ b ++ c.
Proof.
  induction a as [|x a IH]; [reflexivity|].
  change (String x ((a ++ b) ++ c) = String x (a ++ b ++ c)). now rewrite IH.
Qed.

Lemma includes_middle (a b c : string) : includes (a ++ b ++ c) b = true.
Proof.
  assert (Hs : forall p s, startsWith p (p ++ s) = true).
  { induction p as [|x p IH]; intros s; simpl; [reflexivity|].
    now rewrite Ascii.eqb_refl, IH. }
  induction a as [|x a IH]; simpl.
  - destruct b as [|y b]; simpl; [destruct c; reflexivity|].
    now rewrite Ascii.eqb_refl, Hs.
  - rewrite IH. apply orb_true_r.
Qed.

End StringFacts.

Module DecisionFacts.
Import Str NumStr JS Decision DecisionSpec FloatFacts RoundFacts StringFacts.

Lemma known_type (ty : string) (h : number) :
  In (ty, h) haircut_table -> get_property ty COLLATERAL_MARGINS = Own h.
Proof.
  unfold haircut_table.
  intros [H|[H|[H|[H|[H|[H|[H|[]]]]]]]]; injection H as <- <-; reflexivity.
Qed.

Lemma lcDecision_known (ty : string) (h v a : number) :
  get_property ty COLLATERAL_MARGINS = Own h ->
  lcDecision ty v a =
    let e := (v * (1 - h))%float in
    let d := if ge e a then YES else if ge e (a * 0.75)%float then REVIEW else NO in
    {| decision := d;
       reason := reason (lcDecision ty v a);
       margin := margin_num h;
       eligibleValue := e |}.
Proof.
  intros Hp. unfold lcDecision, has_property. rewrite Hp. reflexivity.
Qed.

Lemma lcDecision_unknown (ty : string) (v a : number) :
  has_property ty COLLATERAL_MARGINS = false ->
  lcDecision ty v a =
    {| decision := REVIEW;
       reason := "Unknown collateral type: " ++ ty ++ ". Manual review required.";
       margin := margin_null;
       eligibleValue := 0%float |}.
Proof. intros Hty. unfold lcDecision. rewrite Hty. reflexivity. Qed.



Lemma upper_not_lower (c : ascii) :
  ((97 <=? nat_of_ascii (upper c))%nat && (nat_of_ascii (upper c) <=? 122)%nat) = false.
Proof. destruct c as [[] [] [] [] [] [] [] []]; reflexivity. Qed.

Lemma toUpperCase_has_lower (s : string) : has_lower (toUpperCase s) = false.
Proof.
  induction s as [|c s IH]; [reflexivity|].
  change (toUpperCase (String c s)) with (String (upper c) (toUpperCase s)).
  cbn [has_lower]. now rewrite upper_not_lower, IH.
Qed.

(** Every property name that an object literal inherits has a lower-case
    letter, so no name in upper case is one of them. *)
Lemma upper_case_not_inherited (raw : string) :
  existsb (String.eqb (toUpperCase raw)) Object_prototype = false.
Proof.
  apply not_true_iff_false. intros H. apply existsb_exists in H as (name & Hin & Heq).
  apply String.eqb_eq in Heq. pose proof (toUpperCase_has_lower raw) as Hl.
  rewrite Heq in Hl. unfold Object_prototype in Hin. cbn [In] in Hin.
  repeat (destruct Hin as [<-|Hin]; [discriminate Hl|]). exact Hin.
Qed.

(** The caller passes the type in upper case: such a name, when it is not
    one of the seven of the haircut table, is unknown to [in]. *)
Lemma upper_case_unknown (raw : string) :
  (forall h, ~ In (toUpperCase raw, h) haircut_table) ->
  has_property (toUpperCase raw) COLLATERAL_MARGINS = false.
Proof.
  intros Hout. unfold has_property, get_property.
  assert (Hown : own_property (toUpperCase raw) COLLATERAL_MARGINS = None).
  { unfold COLLATERAL_MARGINS. cbn [own_property].
    repeat match goal with
    | |- context [String.eqb (toUpperCase raw) ?k] =>
        destruct (String.eqb_spec (toUpperCase raw) k) as [Heq|_];
        [exfalso; rewrite Heq in Hout; eapply Hout; unfold haircut_table; cbn [In]; tauto|]
    end. reflexivity. }
  now rewrite Hown, upper_case_not_inherited.
Qed.

(** The unknown types as the caller of [lcDecision] presents them: a type in
    upper case that is not in the haircut table is sent to manual review. *)
Lemma unknown_type_from_caller (raw : string) (v a : number) :
  (forall h, ~ In (toUpperCase raw, h) haircut_table) ->
  let r := lcDecision (toUpperCase raw) v a in
  decision r = REVIEW /\ margin r = margin_null /\ eligibleValue r = 0%float
  /\ includes (reason r) (toUpperCase raw) = true.
Proof.
  intros Hout r. subst r. rewrite (lcDecision_unknown _ v a (upper_case_unknown raw Hout)).
  cbn [decision margin eligibleValue reason]. repeat split. apply includes_middle.
Qed.

(** C1. For each collateral type of the haircut table the eligible value is
    the collateral value times one minus the haircut; the decision is YES
    exactly when it reaches the LC amount, REVIEW exactly when it lies from
    three quarters of the LC amount up to, but below, the LC amount, and NO
    in every other case; FD, 200 against 1,250,000 gives NO. *)
Theorem C1_decision_rule (ty : string) (h v a : number) :
  In (ty, h) haircut_table ->
  let r := lcDecision ty v a in
  let eligible := (v * (1 - h))%float in
  margin r = margin_num h
  /\ eligibleValue r = eligible
  /\ (decision r = YES <-> ge eligible a = true)
  /\ (decision r = REVIEW <-> le (0.75 * a)%float eligible = true /\ lt eligible a = true)
  /\ (decision r = NO <->
        ge eligible a = false
        /\ ~ (le (0.75 * a)%float eligible = true /\ lt eligible a = true))
  /\ decision (lcDecision "FD" 200%float 1250000%float) = NO.
Proof.
  intros Hin r eligible. subst r.
  rewrite (lcDecision_known ty h v a (known_type ty h Hin)). cbn zeta.
  fold eligible. cbn [margin eligibleValue decision].
  rewrite (mul_comm 0.75%float a).
  change (le (a * 0.75)%float eligible) with (ge eligible (a * 0.75)%float).
  split; [reflexivity|]. split; [reflexivity|].
  destruct (ge eligible a) eqn:Hy.
  - repeat split; try congruence; try reflexivity.
    + intros [_ Hlt]. apply lt_not_ge in Hlt. congruence.
    + intros [? _]; congruence.
  - destruct (ge eligible (a * 0.75)%float) eqn:Hr.
    + pose proof (below_of_scaled _ _ _ Hy Hr) as Hlt.
      repeat split; try congruence; try reflexivity.
      intros [_ Hno]. exfalso. apply Hno. now split.
    + repeat split; try congruence; try reflexivity.
      * intros [? _]; congruence.
      * intros [? _]; congruence.
Qed.

Lemma C1_decision_rule_witness :
  In ("FD", 0.00%float) haircut_table
  /\ eligibleValue (lcDecision "FD" 200%float 1250000%float) = 200%float
  /\ ge 200%float 1250000%float = false.
Proof.
  split; [left; reflexivity|].
  destruct (C1_decision_rule "FD" 0.00%float 200%float 1250000%float) as (_ & He & _);
    [left; reflexivity|].
  split; [rewrite He; reflexivity | reflexivity].
Defined.

(** One minus a haircut of the table is a positive finite number with a full
    mantissa and a negative exponent. *)
Lemma retained_share (ty : string) (h : number) :
  In (ty, h) haircut_table ->
  exists m e, Prim2SF (1 - h)%float = S754_finite false m e
              /\ Z.pos (digits2_pos m) = 53%Z /\ (e < 0)%Z.
Proof.
  unfold haircut_table.
  intros [H|[H|[H|[H|[H|[H|[H|[]]]]]]]]; injection H as <- <-;
    (eexists; eexists; split; [vm_compute; reflexivity|split; [reflexivity|reflexivity]]).
Qed.

Lemma SFeqb_zero (x : spec_float) :
  SFeqb x (S754_zero false) = true -> exists s, x = S754_zero s.
Proof.
  destruct x as [s|s| |s m e]; simpl; try discriminate; eauto.
  - destruct s; discriminate.
  - destruct s; discriminate.
Qed.

(** C9. When the LC amount is zero, a known collateral type and a collateral
    value that is not negative give YES, also when the value is zero. *)
Theorem C9_zero_amount_yes (ty : string) (h v a : number) :
  In (ty, h) haircut_table ->
  ge v 0%float = true ->
  (a =? 0)%float = true ->
  decision (lcDecision ty v a) = YES.
Proof.
  intros Hin Hv Ha.
  rewrite (lcDecision_known ty h v a (known_type ty h Hin)). cbn zeta. cbn [decision].
  enough (Hge : ge (v * (1 - h))%float a = true) by (rewrite Hge; reflexivity).
  destruct (retained_share ty h Hin) as (mc & ec & Hc & _ & _).
  unfold ge in *. rewrite leb_spec in *. rewrite FloatAxioms.eqb_spec in Ha.
  rewrite mul_spec, Hc.
  change (Prim2SF 0%float) with (S754_zero false) in *.
  apply SFeqb_zero in Ha as [sa ->].
  destruct (Prim2SF v) as [sv|sv| |sv mv ev]; simpl in Hv |- *;
    try discriminate; try reflexivity.
  - destruct sv; [discriminate|reflexivity].
  - destruct sv; [discriminate|]. simpl.
    pose proof (binary_round_aux_sign false (Z.pos (mv * mc)) (ev + ec) loc_Exact
                  ltac:(lia)) as Hs.
    destruct (binary_round_aux prec emax false (Z.pos (mv * mc)) (ev + ec) loc_Exact)
      as [s|s| |s m e]; try contradiction; subst s; reflexivity.
Qed.

Lemma C9_zero_amount_yes_witness :
  In ("MACHINERY", 0.50%float) haircut_table
  /\ ge 0%float 0%float = true
  /\ (0 =? 0)%float = true
  /\ decision (lcDecision "MACHINERY" 0%float 0%float) = YES.
Proof.
  split; [do 6 right; left; reflexivity|].
  split; [reflexivity|]. split; [reflexivity|].
  apply (C9_zero_amount_yes "MACHINERY" 0.50%float 0%float 0%float);
    [do 6 right; left; reflexivity | reflexivity | reflexivity].
Defined.

End DecisionFacts.

Module ClauseFacts.
Import Str NumStr JS App Clauses Samples FloatFacts StringFacts.

Lemma gt_zero_truthy (t : number) : gt t 0%float = true -> truthy t = true.
Proof.
  unfold gt, truthy, isNaN. rewrite ltb_spec, !FloatAxioms.eqb_spec.
  change (Prim2SF 0%float) with (S754_zero false).
  destruct (Prim2SF t) as [s|s| |s m e]; simpl; try discriminate; try reflexivity.
  - destruct s; [discriminate|reflexivity].
  - destruct s; [discriminate|]. intros _. unfold SFeqb, SFcompare.
    rewrite Z.compare_refl, Pos.compare_cont_refl. reflexivity.
Qed.

Lemma gt_zero_parse (t : number) : gt t 0%float = true -> parseFloat (VNum t) = t.
Proof.
  unfold gt, parseFloat. rewrite ltb_spec.
  change (Prim2SF 0%float) with (S754_zero false).
  destruct (Prim2SF t) as [s|s| |s m e]; simpl; try discriminate; reflexivity.
Qed.

(** A tolerance given as a positive number is stated in both directions. *)
Lemma tolerance_positive (d : application) (t : number) :
  tolerancePct d = VNum t -> gt t 0%float = true ->
  toleranceClause d = tolerance_stated t
  /\ includes (toleranceClause d) (Number_toString t ++ "% more") = true
  /\ includes (toleranceClause d) (Number_toString t ++ "% less") = true.
Proof.
  intros Hd Ht.
  assert (Htol : tol d = t).
  { unfold tol, or_else. rewrite Hd. simpl ToBoolean.
    rewrite (gt_zero_truthy t Ht). apply gt_zero_parse, Ht. }
  unfold toleranceClause. rewrite Htol, Ht. split; [reflexivity|].
  unfold tolerance_stated. split.
  - assert (Hs : forall r, "% more or " ++ r = "% more" ++ " or " ++ r) by reflexivity.
    rewrite Hs, <- (append_assoc (Number_toString t) "% more").
    apply includes_middle.
  - set (rest := "% less in both the unit price and quantity of goods described herein is acceptable, provided the total drawing amount does not exceed the face value of this documentary credit. This tolerance applies per UCP 600 Article 30.").
    assert (Hs : rest = "% less" ++ substring 6 (String.length rest) rest) by reflexivity.
    rewrite Hs, <- (append_assoc (Number_toString t) "% less").
    rewrite <- (append_assoc (Number_toString t) "% more or ").
    rewrite <- (append_assoc "Tolerance Clause: A tolerance of ").
    apply includes_middle.
Qed.

(** The text ["0"] reaches the branch for no tolerance. *)
Lemma tolerance_zero_text :
  toleranceClause (application_of (VNum 100000%float) (VStr "0")) = tolerance_none.
Proof. vm_compute. reflexivity. Qed.

(** C2. An application whose tolerance is the number [0] does not get the
    clause for no tolerance: [0 || 5] is [5], and the clause states 5% in
    both directions. *)
Theorem C2_zero_tolerance_states_five :
  toleranceClause (application_of (VNum 100000%float) (VNum 0%float))
  = "Tolerance Clause: A tolerance of 5% more or 5% less in both the unit price and quantity of goods described herein is acceptable, provided the total drawing amount does not exceed the face value of this documentary credit. This tolerance applies per UCP 600 Article 30."
  /\ toleranceClause (application_of (VNum 100000%float) (VNum 0%float)) <> tolerance_none.
Proof.
  assert (H : toleranceClause (application_of (VNum 100000%float) (VNum 0%float)) = tolerance_stated 5%float)
    by (vm_compute; reflexivity).
  rewrite H. split; [vm_compute; reflexivity|]. vm_compute. discriminate.
Qed.

End ClauseFacts.

Module ExaminerFacts.
Import Str NumStr JS App Row Examiner Samples FloatFacts.

(** The amount rule, in terms of the tolerance the examiner works with:
    above the upper bound one MAJOR discrepancy, else below half of the
    lower bound one MINOR discrepancy, else none. *)
Lemma amount_check_cases (lcApp : row) (doc : presentation) :
  let lcAmt := num_or (parseFloat (lc_amount lcApp)) 0%float in
  let invoiceAmt := num_or (parseFloat (invoice_amount doc)) 0%float in
  let tolerance := num_or (parseFloat (tolerance_pct lcApp)) 5%float in
  let maxAmt := (lcAmt * (1 + tolerance / 100))%float in
  let minAmt := (lcAmt * (1 - tolerance / 100))%float in
  let found := amount_check lcApp doc in
  (gt invoiceAmt maxAmt = true ->
     List.length found = 1%nat /\ List.length (flagged "Invoice Amount" MAJOR found) = 1%nat
     /\ flagged "Invoice Amount" MINOR found = [])
  /\ (gt invoiceAmt maxAmt = false -> lt invoiceAmt (minAmt * 0.5)%float = true ->
     List.length found = 1%nat /\ List.length (flagged "Invoice Amount" MINOR found) = 1%nat
     /\ flagged "Invoice Amount" MAJOR found = [])
  /\ (gt invoiceAmt maxAmt = false -> lt invoiceAmt (minAmt * 0.5)%float = false ->
     found = []).
Proof.
  cbv zeta. unfold amount_check.
  destruct (gt _ _) eqn:Hmax.
  - split; [intros _|split; intros; congruence]. repeat split.
  - destruct (lt _ _) eqn:Hmin.
    + split; [intros; congruence|]. split; [intros _ _|intros; congruence].
      repeat split.
    + split; [intros; congruence|]. split; [intros; congruence|]. reflexivity.
Qed.

(** The worked example: amount 100,000 and tolerance 5 per cent. *)
Lemma amount_check_example :
  flagged "Invoice Amount" MAJOR
    (fst (runDiscrepancyCheck new_year (credit (VNum 100000%float) (VNum 5%float))
            (invoice (VNum 104999%float)))) = []
  /\ List.map (fun d => (field_name d, severity d))
       (fst (runDiscrepancyCheck new_year (credit (VNum 100000%float) (VNum 5%float))
               (invoice (VNum 106000%float))))
     = [("Invoice Amount", MAJOR)].
Proof. split; vm_compute; reflexivity. Qed.

(** C3. With tolerance 0 on a credit of 100,000 an invoice of 102,000 is
    above [lcAmount * (1 + 0/100)], yet the examiner reports nothing on the
    invoice amount: [parseFloat(0) || 5] makes it work with 5 per cent. *)
Theorem C3_zero_tolerance_not_flagged :
  gt 102000%float (100000 * (1 + 0 / 100))%float = true
  /\ num_or (parseFloat (VNum 0%float)) 5%float = 5%float
  /\ fst (runDiscrepancyCheck new_year (credit (VNum 100000%float) (VNum 0%float))
            (invoice (VNum 102000%float))) = []
  /\ overall (snd (runDiscrepancyCheck new_year (credit (VNum 100000%float) (VNum 0%float))
            (invoice (VNum 102000%float)))) = "COMPLIANT".
Proof. repeat split; vm_compute; reflexivity. Qed.

End ExaminerFacts.

Module FeeFacts.
Import Str NumStr JS App Fees FeeSpec Samples FloatFacts.

(** Amount 17,000 with the default tenor: the subtotal is 8572.25 whether
    rounded or not, the grand total is 10115.26, and
    [round2(subtotal + subtotal * 0.18)] is 10115.25. *)
Lemma C5_grand_total_differs :
  subtotal (calculateLCFees new_year (application_of (VNum 17000%float) VNull)) = 8572.25%float
  /\ (17000 * 0.30 / 100 + 17000 * 0.125 / 100 + 0 + (5000 + 3500))%float = 8572.25%float
  /\ grandTotal (calculateLCFees new_year (application_of (VNum 17000%float) VNull)) = 10115.26%float
  /\ with_gst 8572.25%float = 10115.25%float
  /\ grandTotal (calculateLCFees new_year (application_of (VNum 17000%float) VNull))
     <> with_gst (subtotal (calculateLCFees new_year (application_of (VNum 17000%float) VNull))).
Proof.
  repeat split; try (vm_compute; reflexivity).
  intros H. apply (f_equal Prim2SF) in H. vm_compute in H. discriminate H.
Qed.

Lemma band_rate (months : number) : midRate (band_for months) = rate_for months.
Proof.
  unfold band_for, rate_for, FEE_SCHEDULE, over_one_year, tenorBands, List.find, maxMonths.
  destruct (le months 3%float); [reflexivity|].
  destruct (le months 6%float); [reflexivity|].
  destruct (le months 12%float); [reflexivity|].
  destruct (le months 999%float); reflexivity.
Qed.

(** C5, as the code has it.  The tenor is [max(1, ceil((expiry - today) /
    30.44 days))], or 3 when the expiry date is absent or does not parse; the
    applied rate is the mid-rate of the first band covering the tenor, so
    tenors of 1, 3, 6, 12 and 13 months get 0.30, 0.30, 0.60, 1.20 and 1.55;
    and the grand total is [round2] of the unrounded subtotal plus the GST
    taken separately, at 18/100, on the variable and on the fixed fees; the
    variable fees are the issuance commission at the applied rate, the
    negotiation fee and, when a confirming bank is named, the confirmation
    premium. *)
Theorem C5_fee_schedule (E : env) (data : application) :
  let r := calculateLCFees E data in
  tenorMonths r =
    match lcExpiryDate data with
    | Some text =>
        if negb (String.eqb text EmptyString) && negb (isNaN (Date_parse E text))
        then Math_max 1%float (Math_ceil ((Date_parse E text - now E) / month_ms)%float)
        else 3%float
    | None => 3%float
    end
  /\ month_ms = (30.44 * 86400000)%float
  /\ appliedRate r = rate_for (tenorMonths r)
  /\ List.map rate_for [1; 3; 6; 12; 13]%float = [0.30; 0.30; 0.60; 1.20; 1.55]%float
  /\ exists premium : number,
       (premium = 0%float \/ premium = (Fees.lcAmount r * 0.15 / 100)%float)
       /\ let variable :=
            (Fees.lcAmount r * appliedRate r / 100 + Fees.lcAmount r * 0.125 / 100
             + premium)%float in
          let fixed := (5000 + 3500)%float in
          totalVariableFees r = round2 variable
          /\ totalFixedFees r = round2 fixed
          /\ subtotal r = round2 (variable + fixed)%float
          /\ gstAmount r = round2 (variable * 18 / 100 + fixed * 18 / 100)%float
          /\ grandTotal r
             = round2 (variable + fixed + (variable * 18 / 100 + fixed * 18 / 100))%float.
Proof.
  cbv zeta. split; [|split; [|split; [|split]]].
  - unfold calculateLCFees, tenor. cbn [tenorMonths].
    destruct (lcExpiryDate data) as [text|]; reflexivity.
  - vm_compute. reflexivity.
  - unfold calculateLCFees. cbn [appliedRate tenorMonths]. apply band_rate.
  - vm_compute. reflexivity.
  - unfold calculateLCFees.
    cbn [totalVariableFees totalFixedFees subtotal gstAmount grandTotal Fees.lcAmount appliedRate].
    match goal with
    | |- context [if ?c then _ else 0%float] => destruct c
    end.
    + eexists. split; [right; reflexivity|]. repeat split.
    + eexists. split; [left; reflexivity|]. repeat split.
Qed.

End FeeFacts.

Module ValidatorFacts.
Import Str NumStr JS App Validator ValidatorSpec.







End ValidatorFacts.

Module LineFacts.
Import Str NumStr JS App Row MT700Spec StringFacts.















End LineFacts.

Module MT700Facts.
Import Str NumStr JS App Row MT700 MT700Spec Samples StringFacts LineFacts.





Lemma calm_end (v : string) : calm v -> tags_from InLine v = [].
Proof. now intros [H _]. Qed.

















End MT700Facts.
(* ===================================================================== *)
(** * Facts about rounding to binary64 *)
(* ===================================================================== *)

Module RoundTheory.
Import RoundSpec.
#[local] Open Scope Z_scope.


(** ** Digits *)

Lemma digits2_size (p : positive) : digits2_pos p = Pos.size p.
Proof. induction p as [p IH|p IH|]; simpl; now rewrite ?IH. Qed.

Lemma digits_bounds (p : positive) :
  2 ^ (Z.pos (digits2_pos p) - 1) <= Z.pos p < 2 ^ Z.pos (digits2_pos p).
Proof.
  rewrite digits2_size. split.
  - pose proof (Pos.size_le p) as H.
    assert (H2 : (2 ^ Pos.size p <= p~0)%positive) by exact H.
    apply Pos2Z.pos_le_pos in H2. rewrite Pos2Z.inj_pow in H2.
    change (Z.pos p~0) with (2 * Z.pos p) in H2.
    assert (Hp : 2 ^ Z.pos (Pos.size p) = 2 * 2 ^ (Z.pos (Pos.size p) - 1)).
    { rewrite <- Z.pow_succ_r by lia. f_equal. lia. }
    lia.
  - pose proof (Pos.size_gt p) as H. apply Pos2Z.pos_lt_pos in H.
    now rewrite Pos2Z.inj_pow in H.
Qed.

Lemma digits_log2 (p : positive) : Z.pos (digits2_pos p) = Z.log2 (Z.pos p) + 1.
Proof.
  pose proof (digits_bounds p) as [Hl Hu].
  rewrite (Z.log2_unique (Z.pos p) (Z.pos (digits2_pos p) - 1)); [lia|lia|].
  split; [exact Hl|].
  now replace (Z.succ (Z.pos (digits2_pos p) - 1)) with (Z.pos (digits2_pos p)) by lia.
Qed.

Lemma Zdigits2_log2 (m : Z) : 0 < m -> Zdigits2 m = Z.log2 m + 1.
Proof. destruct m as [|p|p]; try lia. intros _. apply digits_log2. Qed.

Lemma Zdigits2_nonneg (m : Z) : 0 <= Zdigits2 m.
Proof. destruct m; simpl; lia. Qed.

(** [m] has at most [d] digits exactly when it lies below [2^d]. *)
Lemma digits_le (m d : Z) : 0 < m -> 0 <= d -> (Zdigits2 m <= d <-> m < 2 ^ d).
Proof.
  intros Hm Hd. rewrite (Zdigits2_log2 m Hm). split; intros H.
  - apply Z.log2_lt_pow2; lia.
  - apply Z.log2_lt_pow2 in H; lia.
Qed.

Lemma digits_ge (m d : Z) : 0 < m -> 0 < d -> (d <= Zdigits2 m <-> 2 ^ (d - 1) <= m).
Proof.
  intros Hm Hd. rewrite (Zdigits2_log2 m Hm). split; intros H.
  - apply Z.log2_le_pow2; lia.
  - apply Z.log2_le_pow2 in H; lia.
Qed.

(** ** Shifting to the right *)

Lemma shr_1_represents (r : shr_record) (A P : Z) :
  represents r A P -> represents (shr_1 r) A (2 * P).
Proof.
  destruct r as [m rb sb]. unfold represents. cbn [shr_m shr_r shr_s].
  intros (Hm & HP & rest & HA & Hrem & Hloc).
  destruct m as [|[p|p|]|p]; try lia; cbn [shr_1 shr_m shr_r shr_s].
  - split; [lia|]. split; [lia|]. exists rest.
    split; [lia|]. split; [lia|].
    destruct rb, sb; cbn [located orb] in *; lia.
  - split; [lia|]. split; [lia|]. exists (rest + P).
    change (Z.pos p~1) with (2 * Z.pos p + 1) in HA.
    split; [lia|]. split; [lia|].
    destruct rb, sb; cbn [located orb] in *; lia.
  - split; [lia|]. split; [lia|]. exists rest.
    change (Z.pos p~0) with (2 * Z.pos p) in HA.
    split; [lia|]. split; [lia|].
    destruct rb, sb; cbn [located orb] in *; lia.
  - split; [lia|]. split; [lia|]. exists (rest + P).
    split; [lia|]. split; [lia|].
    destruct rb, sb; cbn [located orb] in *; lia.
Qed.

Lemma iter_represents (p : positive) :
  forall (r : shr_record) (A P : Z),
  represents r A P -> represents (SpecFloat.iter_pos shr_1 p r) A (2 ^ Z.pos p * P).
Proof.
  induction p as [p IH|p IH|]; intros r A P Hr; cbn [SpecFloat.iter_pos].
  - replace (2 ^ Z.pos p~1 * P) with (2 ^ Z.pos p * (2 ^ Z.pos p * (2 * P))).
    + apply IH, IH, shr_1_represents, Hr.
    + change (Z.pos p~1) with (2 * Z.pos p + 1).
      replace (2 * Z.pos p + 1) with (Z.pos p + Z.pos p + 1) by lia.
      rewrite !Z.pow_add_r by lia. change (2 ^ 1) with 2. ring.
  - replace (2 ^ Z.pos p~0 * P) with (2 ^ Z.pos p * (2 ^ Z.pos p * P)).
    + apply IH, IH, Hr.
    + change (Z.pos p~0) with (2 * Z.pos p).
      replace (2 * Z.pos p) with (Z.pos p + Z.pos p) by lia.
      rewrite !Z.pow_add_r by lia. ring.
  - change (2 ^ 1 * P) with (2 * P). apply shr_1_represents, Hr.
Qed.

Lemma represents_div (r : shr_record) (A P : Z) :
  represents r A P -> shr_m r = A / P.
Proof.
  intros (Hm & HP & rest & HA & Hrem & _).
  apply (Z.div_unique A P (shr_m r) rest); [lia|]. lia.
Qed.

Lemma round_represents (r : shr_record) (A P : Z) :
  represents r A P ->
  round_nearest_even (shr_m r) (loc_of_shr_record r) = rne A P.
Proof.
  intros Hr. pose proof (represents_div r A P Hr) as Hdiv.
  destruct Hr as (Hm & HP & rest & HA & Hrem & Hloc).
  assert (Hmod : rest = A mod P).
  { apply (Z.mod_unique A P (shr_m r) rest); [lia|]. lia. }
  unfold rne. rewrite <- Hdiv, <- Hmod.
  destruct r as [m rb sb]. cbn [shr_m shr_r shr_s] in *.
  destruct rb, sb; cbn [located loc_of_shr_record round_nearest_even] in *;
    destruct (Z.ltb_spec (2 * rest) P); destruct (Z.ltb_spec P (2 * rest)); try lia;
    reflexivity.
Qed.

Lemma exact_represents (M : Z) :
  0 <= M -> represents (shr_record_of_loc M loc_Exact) M 1.
Proof.
  intros HM. unfold represents. cbn. split; [exact HM|]. split; [lia|].
  exists 0. split; [lia|]. split; [lia|]. reflexivity.
Qed.

Lemma fexp_eq (e : Z) : fexp prec emax e = Z.max (e - 53) (-1074).
Proof. reflexivity. Qed.

Lemma rne_bounds (A P : Z) : 0 < P -> A / P <= rne A P <= A / P + 1.
Proof.
  intros HP. unfold rne.
  destruct (2 * (A mod P) <? P); [lia|].
  destruct (P <? 2 * (A mod P)); [lia|].
  destruct (Z.even (A / P)); lia.
Qed.

(** The first shift of [binary_round_aux], when it does not go left. *)
Lemma first_shift (M E : Z) (l : location) (A P0 : Z) :
  represents (shr_record_of_loc M l) A P0 ->
  E <= fexp prec emax (Zdigits2 M + E) ->
  exists r,
    shr_fexp prec emax M E l = (r, fexp prec emax (Zdigits2 M + E))
    /\ represents r A (2 ^ (fexp prec emax (Zdigits2 M + E) - E) * P0).
Proof.
  intros Hr Hn. unfold shr_fexp, shr.
  set (e1 := fexp prec emax (Zdigits2 M + E)) in *.
  destruct (e1 - E) as [|p|p] eqn:Hp; try lia.
  - exists (shr_record_of_loc M l). split; [f_equal; lia|].
    change (2 ^ 0 * P0) with (1 * P0). now rewrite Z.mul_1_l.
  - exists (SpecFloat.iter_pos shr_1 p (shr_record_of_loc M l)). split; [f_equal; lia|].
    apply iter_represents, Hr.
Qed.

(** The second shift only acts on a mantissa of 54 digits. *)
Lemma second_shift (q e : Z) :
  -1074 <= e -> 0 <= q <= 2 ^ 53 ->
  shr_fexp prec emax q e loc_Exact
  = ({| shr_m := fst (renorm q e); shr_r := false; shr_s := false |}, snd (renorm q e)).
Proof.
  intros He Hq. unfold renorm. destruct (Z.eqb_spec q (2 ^ 53)) as [->|Hne].
  - unfold shr_fexp. change (Zdigits2 (2 ^ 53)) with 54. rewrite fexp_eq.
    replace (Z.max (54 + e - 53) (-1074) - e) with 1 by lia. reflexivity.
  - unfold shr_fexp, shr. rewrite fexp_eq.
    assert (Hd : Zdigits2 q <= 53).
    { destruct (Z.eq_dec q 0) as [->|Hq0]; [cbn; lia|].
      apply digits_le; lia. }
    cbn [fst snd].
    destruct (Z.max (Zdigits2 q + e - 53) (-1074) - e) as [|p|p] eqn:Hp; try lia;
      reflexivity.
Qed.

(** ** The result of rounding *)

(** When the first shift does not go left, [binary_round_aux] rounds the
    represented quotient to the nearest, ties to even, at the exponent that
    the digits of the mantissa give. *)
Lemma round_aux_normal (s : bool) (M E : Z) (l : location) (A P0 : Z) :
  0 <= M ->
  represents (shr_record_of_loc M l) A P0 ->
  let e1 := fexp prec emax (Zdigits2 M + E) in
  E <= e1 ->
  binary_round_aux prec emax s M E l
  = finish s (renorm (rne A (2 ^ (e1 - E) * P0)) e1)
  /\ M / 2 ^ (e1 - E) <= rne A (2 ^ (e1 - E) * P0) <= M / 2 ^ (e1 - E) + 1
  /\ M / 2 ^ (e1 - E) < 2 ^ 53.
Proof.
  intros HM Hr e1 Hn.
  destruct (first_shift M E l A P0 Hr Hn) as (r & Hshift & Hrep). fold e1 in Hshift, Hrep.
  pose proof (round_represents r A _ Hrep) as Hround.
  assert (HP0 : 0 < P0) by (destruct Hr as (_ & H & _); exact H).
  assert (Hpow : 0 < 2 ^ (e1 - E)) by (apply Z.pow_pos_nonneg; lia).
  assert (Hm : A / (2 ^ (e1 - E) * P0) = M / 2 ^ (e1 - E)).
  { pose proof (represents_div _ A P0 Hr) as H0.
    assert (Hm0 : shr_m (shr_record_of_loc M l) = M) by (destruct l as [|[]]; reflexivity).
    rewrite Hm0 in H0. rewrite Z.mul_comm, <- Z.div_div by lia. now rewrite <- H0. }
  pose proof (rne_bounds A (2 ^ (e1 - E) * P0) ltac:(lia)) as Hb. rewrite Hm in Hb.
  assert (Hlt : M / 2 ^ (e1 - E) < 2 ^ 53).
  { apply Z.div_lt_upper_bound; [lia|].
    rewrite <- Z.pow_add_r by lia.
    destruct (Z.eq_dec M 0) as [->|HM0]; [apply Z.pow_pos_nonneg; lia|].
    assert (Hd : M < 2 ^ Zdigits2 M).
    { apply digits_le; try lia. apply Zdigits2_nonneg. }
    eapply Z.lt_le_trans; [exact Hd|]. apply Z.pow_le_mono_r; [lia|].
    unfold e1. rewrite fexp_eq. lia. }
  split; [|split; [exact Hb|exact Hlt]].
  unfold binary_round_aux. rewrite Hshift, Hround.
  assert (Hq : 0 <= rne A (2 ^ (e1 - E) * P0) <= 2 ^ 53).
  { assert (0 <= M / 2 ^ (e1 - E)) by (apply Z.div_pos; lia). lia. }
  rewrite (second_shift _ e1 ltac:(unfold e1; rewrite fexp_eq; lia) Hq).
  cbn [shr_m]. unfold finish. destruct (renorm _ e1) as [q' e']. reflexivity.
Qed.

(** ** Rounding is monotone *)

Lemma rne_mono (A B P : Z) : 0 < P -> A <= B -> rne A P <= rne B P.
Proof.
  intros HP HAB. unfold rne.
  pose proof (Z.div_mod A P ltac:(lia)) as HA.
  pose proof (Z.div_mod B P ltac:(lia)) as HB.
  pose proof (Z.mod_pos_bound A P HP) as HrA.
  pose proof (Z.mod_pos_bound B P HP) as HrB.
  pose proof (Z.div_le_mono A B P HP HAB) as Hdiv.
  destruct (Z.eq_dec (A / P) (B / P)) as [Heq|Hne].
  - rewrite Heq in *. assert (A mod P <= B mod P) by lia.
    destruct (Z.ltb_spec (2 * (A mod P)) P), (Z.ltb_spec (2 * (B mod P)) P),
      (Z.ltb_spec P (2 * (A mod P))), (Z.ltb_spec P (2 * (B mod P)));
      destruct (Z.even (B / P)); lia.
  - destruct (2 * (A mod P) <? P), (2 * (B mod P) <? P),
      (P <? 2 * (A mod P)), (P <? 2 * (B mod P)),
      (Z.even (A / P)), (Z.even (B / P)); lia.
Qed.

Lemma rne_scale (A P c : Z) : 0 < P -> 0 < c -> rne (A * c) (P * c) = rne A P.
Proof.
  intros HP Hc. unfold rne.
  rewrite Z.div_mul_cancel_r by lia. rewrite Z.mul_mod_distr_r by lia.
  replace (2 * (A mod P * c) <? P * c) with (2 * (A mod P) <? P).
  2:{ destruct (Z.ltb_spec (2 * (A mod P)) P), (Z.ltb_spec (2 * (A mod P * c)) (P * c));
        try reflexivity; nia. }
  replace (P * c <? 2 * (A mod P * c)) with (P <? 2 * (A mod P)).
  2:{ destruct (Z.ltb_spec P (2 * (A mod P))), (Z.ltb_spec (P * c) (2 * (A mod P * c)));
        try reflexivity; nia. }
  reflexivity.
Qed.

Lemma Zdigits2_shift (m k : Z) : 0 < m -> 0 <= k -> Zdigits2 (m * 2 ^ k) = Zdigits2 m + k.
Proof.
  intros Hm Hk.
  assert (0 < 2 ^ k) by (apply Z.pow_pos_nonneg; lia).
  rewrite !Zdigits2_log2 by nia. rewrite Z.log2_mul_pow2 by lia. lia.
Qed.

Lemma Zdigits2_mono (a b : Z) : 0 < a -> a <= b -> Zdigits2 a <= Zdigits2 b.
Proof.
  intros Ha Hab. rewrite !Zdigits2_log2 by lia.
  pose proof (Z.log2_le_mono a b Hab). lia.
Qed.

Lemma quotient_bound (M E : Z) :
  0 <= M -> E <= fexp prec emax (Zdigits2 M + E) ->
  0 <= M / 2 ^ (fexp prec emax (Zdigits2 M + E) - E) < 2 ^ 53.
Proof.
  intros HM Hn. set (e1 := fexp prec emax (Zdigits2 M + E)) in *.
  assert (Hpow : 0 < 2 ^ (e1 - E)) by (apply Z.pow_pos_nonneg; lia).
  split; [apply Z.div_pos; lia|].
  apply Z.div_lt_upper_bound; [lia|].
  rewrite <- Z.pow_add_r by lia.
  destruct (Z.eq_dec M 0) as [->|HM0]; [apply Z.pow_pos_nonneg; lia|].
  assert (Hd : M < 2 ^ Zdigits2 M).
  { apply digits_le; try lia. apply Zdigits2_nonneg. }
  eapply Z.lt_le_trans; [exact Hd|]. apply Z.pow_le_mono_r; [lia|].
  unfold e1. rewrite fexp_eq. lia.
Qed.

(** Above the least exponent the rounded mantissa has its 53 digits. *)
Lemma quotient_full (M E : Z) :
  0 < M -> -1074 < fexp prec emax (Zdigits2 M + E) ->
  E <= fexp prec emax (Zdigits2 M + E) ->
  2 ^ 52 <= M / 2 ^ (fexp prec emax (Zdigits2 M + E) - E).
Proof.
  intros HM Hnorm Hn. rewrite fexp_eq in *.
  assert (He : Z.max (Zdigits2 M + E - 53) (-1074) = Zdigits2 M + E - 53) by lia.
  rewrite He in *.
  replace (Zdigits2 M + E - 53 - E) with (Zdigits2 M - 53) by lia.
  apply Z.div_le_lower_bound; [apply Z.pow_pos_nonneg; lia|].
  rewrite <- Z.pow_add_r by lia.
  replace (Zdigits2 M - 53 + 52) with (Zdigits2 M - 1) by lia.
  apply digits_ge; lia.
Qed.

(** Two positive numbers [M1 * 2^E1 <= M2 * 2^E2], compared over a common
    exponent [B], round to results in the same order. *)
Lemma round_mono (M1 E1 M2 E2 B : Z) :
  0 < M1 -> 0 < M2 -> B <= E1 -> B <= E2 ->
  E1 <= fexp prec emax (Zdigits2 M1 + E1) ->
  E2 <= fexp prec emax (Zdigits2 M2 + E2) ->
  M1 * 2 ^ (E1 - B) <= M2 * 2 ^ (E2 - B) ->
  lexle (renorm (rne M1 (2 ^ (fexp prec emax (Zdigits2 M1 + E1) - E1)))
                (fexp prec emax (Zdigits2 M1 + E1)))
        (renorm (rne M2 (2 ^ (fexp prec emax (Zdigits2 M2 + E2) - E2)))
                (fexp prec emax (Zdigits2 M2 + E2))).
Proof.
  intros HM1 HM2 HB1 HB2 Hn1 Hn2 Hle.
  set (e1 := fexp prec emax (Zdigits2 M1 + E1)) in *.
  set (e2 := fexp prec emax (Zdigits2 M2 + E2)) in *.
  assert (Hp1 : 0 < 2 ^ (E1 - B)) by (apply Z.pow_pos_nonneg; lia).
  assert (Hp2 : 0 < 2 ^ (E2 - B)) by (apply Z.pow_pos_nonneg; lia).
  assert (Hq1 : 0 < 2 ^ (e1 - E1)) by (apply Z.pow_pos_nonneg; lia).
  assert (Hq2 : 0 < 2 ^ (e2 - E2)) by (apply Z.pow_pos_nonneg; lia).
  (* the exponents are in order *)
  assert (Hd : Zdigits2 M1 + E1 <= Zdigits2 M2 + E2).
  { pose proof (Zdigits2_mono _ _ (Z.mul_pos_pos _ _ HM1 Hp1) Hle) as H.
    rewrite !Zdigits2_shift in H by lia. lia. }
  assert (He : e1 <= e2) by (unfold e1, e2; rewrite !fexp_eq; lia).
  (* the mantissas over the common exponent *)
  assert (Hr1 : rne M1 (2 ^ (e1 - E1)) = rne (M1 * 2 ^ (E1 - B)) (2 ^ (e1 - B))).
  { rewrite <- (rne_scale M1 (2 ^ (e1 - E1)) (2 ^ (E1 - B))) by lia.
    rewrite <- Z.pow_add_r by lia. do 2 f_equal. lia. }
  assert (Hr2 : rne M2 (2 ^ (e2 - E2)) = rne (M2 * 2 ^ (E2 - B)) (2 ^ (e2 - B))).
  { rewrite <- (rne_scale M2 (2 ^ (e2 - E2)) (2 ^ (E2 - B))) by lia.
    rewrite <- Z.pow_add_r by lia. do 2 f_equal. lia. }
  pose proof (quotient_bound M1 E1 ltac:(lia) Hn1) as Hb1. fold e1 in Hb1.
  pose proof (quotient_bound M2 E2 ltac:(lia) Hn2) as Hb2. fold e2 in Hb2.
  pose proof (rne_bounds M1 (2 ^ (e1 - E1)) Hq1) as Hc1.
  pose proof (rne_bounds M2 (2 ^ (e2 - E2)) Hq2) as Hc2.
  assert (H52 : 2 ^ 52 = 4503599627370496) by reflexivity.
  assert (H53 : 2 ^ 53 = 9007199254740992) by reflexivity.
  destruct (Z.eq_dec e1 e2) as [Heq|Hneq].
  - assert (Hq : rne M1 (2 ^ (e1 - E1)) <= rne M2 (2 ^ (e2 - E2))).
    { rewrite Hr1, Hr2, Heq. apply rne_mono; [apply Z.pow_pos_nonneg; lia|exact Hle]. }
    unfold lexle, renorm.
    destruct (Z.eqb_spec (rne M1 (2 ^ (e1 - E1))) (2 ^ 53)),
             (Z.eqb_spec (rne M2 (2 ^ (e2 - E2))) (2 ^ 53)); cbn [fst snd]; lia.
  - pose proof (quotient_full M2 E2 HM2 ltac:(fold e2; unfold e1 in *; rewrite fexp_eq in *; lia) Hn2)
      as Hfull. fold e2 in Hfull.
    unfold lexle, renorm.
    destruct (Z.eqb_spec (rne M1 (2 ^ (e1 - E1))) (2 ^ 53)),
             (Z.eqb_spec (rne M2 (2 ^ (e2 - E2))) (2 ^ 53)); cbn [fst snd]; lia.
Qed.

Lemma rne_bounds_nonneg (M E : Z) :
  0 <= M -> E <= fexp prec emax (Zdigits2 M + E) ->
  0 <= fst (renorm (rne M (2 ^ (fexp prec emax (Zdigits2 M + E) - E)))
                   (fexp prec emax (Zdigits2 M + E))).
Proof.
  intros HM Hn. pose proof (quotient_bound M E HM Hn) as Hb.
  pose proof (rne_bounds M (2 ^ (fexp prec emax (Zdigits2 M + E) - E))
                ltac:(apply Z.pow_pos_nonneg; lia)) as Hc.
  unfold renorm. destruct (_ =? _); cbn [fst]; [reflexivity || lia|lia].
Qed.

(** ** The order of the results *)

Lemma finish_le_pos (a b : Z * Z) :
  0 <= fst a -> lexle a b -> SFleb (finish false a) (finish false b) = true.
Proof.
  destruct a as [q1 e1], b as [q2 e2]. unfold lexle, finish, SFleb. cbn [fst snd].
  intros H0 H.
  destruct q1 as [|p1|p1], q2 as [|p2|p2]; try lia;
    destruct (Z.leb_spec e1 (emax - prec)), (Z.leb_spec e2 (emax - prec));
    cbn [SFcompare]; try reflexivity; try lia.
  destruct (Z.compare_spec e1 e2); try reflexivity; try lia.
  destruct H as [H|[_ H]]; [lia|].
  unfold Pos.compare. rewrite Pos.compare_cont_spec. cbn [Pos.switch_Eq].
  destruct (Pos.compare_spec p1 p2); try reflexivity; lia.
Qed.

Lemma finish_le_neg (a b : Z * Z) :
  0 <= fst a -> lexle a b -> SFleb (finish true b) (finish true a) = true.
Proof.
  destruct a as [q1 e1], b as [q2 e2]. unfold lexle, finish, SFleb. cbn [fst snd].
  intros H0 H.
  destruct q1 as [|p1|p1], q2 as [|p2|p2]; try lia;
    destruct (Z.leb_spec e1 (emax - prec)), (Z.leb_spec e2 (emax - prec));
    cbn [SFcompare]; try reflexivity; try lia.
  destruct (Z.compare_spec e2 e1); try reflexivity; try lia.
  destruct H as [H|[_ H]]; [lia|].
  rewrite Pos.compare_cont_spec. cbn [Pos.switch_Eq].
  destruct (Pos.compare_spec p2 p1); try reflexivity; lia.
Qed.

End RoundTheory.

(* ===================================================================== *)
(** * The rule engine is monotone in the collateral value *)
(* ===================================================================== *)

Module OrderFacts.
Import RoundSpec RoundTheory FloatFacts RoundFacts.
#[local] Open Scope Z_scope.

Lemma valid_finite (s : bool) (m : positive) (e : Z) :
  valid_binary (S754_finite s m e) = true ->
  fexp prec emax (Z.pos (digits2_pos m) + e) = e /\ e <= emax - prec.
Proof.
  unfold valid_binary. cbn [SpecFloat.valid_binary]. unfold bounded, canonical_mantissa.
  intros [H1 H2]%andb_true_iff. split.
  - now apply Z.eqb_eq.
  - now apply Z.leb_le.
Qed.

Lemma SFleb_finite_pos (m1 : positive) (e1 : Z) (m2 : positive) (e2 : Z) :
  SFleb (S754_finite false m1 e1) (S754_finite false m2 e2) = true
  <-> e1 < e2 \/ e1 = e2 /\ Z.pos m1 <= Z.pos m2.
Proof.
  unfold SFleb. cbn [SFcompare].
  destruct (Z.compare_spec e1 e2).
  - rewrite Pos.compare_cont_spec. cbn [Pos.switch_Eq].
    destruct (Pos.compare_spec m1 m2); split; intros; try reflexivity;
      try discriminate; lia.
  - split; [lia|reflexivity].
  - split; [discriminate|lia].
Qed.

Lemma SFleb_finite_neg (m1 : positive) (e1 : Z) (m2 : positive) (e2 : Z) :
  SFleb (S754_finite true m1 e1) (S754_finite true m2 e2) = true
  <-> e2 < e1 \/ e1 = e2 /\ Z.pos m2 <= Z.pos m1.
Proof.
  unfold SFleb. cbn [SFcompare].
  destruct (Z.compare_spec e1 e2).
  - rewrite Pos.compare_cont_spec. cbn [Pos.switch_Eq].
    destruct (Pos.compare_spec m1 m2); split; intros; try reflexivity;
      try discriminate; lia.
  - split; [discriminate|lia].
  - split; [lia|reflexivity].
Qed.

(** On binary64 values the order of [SFleb] is the order of the numbers:
    over the smaller exponent the mantissas compare the same way. *)
Lemma valid_order (m1 : positive) (e1 : Z) (m2 : positive) (e2 : Z) :
  valid_binary (S754_finite false m1 e1) = true ->
  valid_binary (S754_finite false m2 e2) = true ->
  e1 < e2 \/ e1 = e2 /\ Z.pos m1 <= Z.pos m2 ->
  Z.pos m1 * 2 ^ (e1 - Z.min e1 e2) <= Z.pos m2 * 2 ^ (e2 - Z.min e1 e2).
Proof.
  intros [H1 _]%valid_finite [H2 _]%valid_finite H.
  rewrite fexp_eq in H1, H2.
  destruct H as [Hlt|[-> Hle]].
  - replace (Z.min e1 e2) with e1 by lia.
    replace (e1 - e1) with 0 by lia. change (2 ^ 0) with 1.
    assert (Hd1 : Z.pos m1 < 2 ^ 53).
    { apply (digits_le (Z.pos m1) 53); [lia|lia|]. cbn [Zdigits2]. lia. }
    assert (Hd2 : 2 ^ 52 <= Z.pos m2).
    { apply (digits_ge (Z.pos m2) 53); [lia|lia|]. cbn [Zdigits2]. lia. }
    assert (Hp : 2 <= 2 ^ (e2 - e1)).
    { change 2 with (2 ^ 1) at 1. apply Z.pow_le_mono_r; lia. }
    assert (H52 : 2 ^ 52 = 4503599627370496) by reflexivity.
    assert (H53 : 2 ^ 53 = 9007199254740992) by reflexivity.
    nia.
  - replace (Z.min e2 e2) with e2 by lia.
    replace (e2 - e2) with 0 by lia. change (2 ^ 0) with 1. lia.
Qed.

Lemma SFleb_trans (x y z : spec_float) :
  SFleb x y = true -> SFleb y z = true -> SFleb x z = true.
Proof.
  destruct x as [sx|sx| |sx mx ex], y as [sy|sy| |sy my ey], z as [sz|sz| |sz mz ez];
    try (destruct sx); try (destruct sy); try (destruct sz);
    try reflexivity; try discriminate; try (intros _ H; exact H); try (intros H _; exact H).
  - rewrite !SFleb_finite_neg. lia.
  - rewrite !SFleb_finite_pos. lia.
Qed.

(** The product of a positive binary64 number with the finite part of
    another one, rounded. *)
Lemma product_normal (s : bool) (m c : positive) (e ec : Z) :
  Z.pos (digits2_pos c) = 53 ->
  let M := Z.pos (m * c) in
  let E := e + ec in
  E <= fexp prec emax (Zdigits2 M + E)
  /\ binary_round_aux prec emax s M E loc_Exact
     = finish s (renorm (rne M (2 ^ (fexp prec emax (Zdigits2 M + E) - E)))
                        (fexp prec emax (Zdigits2 M + E))).
Proof.
  intros Hc M E.
  assert (Hn : E <= fexp prec emax (Zdigits2 M + E)).
  { rewrite fexp_eq.
    assert (H : Zdigits2 (Z.pos c) <= Zdigits2 M).
    { apply Zdigits2_mono; [lia|]. unfold M. nia. }
    change (Zdigits2 (Z.pos c)) with (Z.pos (digits2_pos c)) in H. lia. }
  split; [exact Hn|].
  destruct (round_aux_normal s M E loc_Exact M 1) as (H & _); [unfold M; lia| |exact Hn|].
  - apply exact_represents. unfold M. lia.
  - rewrite H. now rewrite Z.mul_1_r.
Qed.

(** Multiplying by a positive constant of 53 digits keeps the order. *)
Lemma SFmul_mono (x1 x2 : spec_float) (c : positive) (ec : Z) :
  valid_binary x1 = true -> valid_binary x2 = true ->
  Z.pos (digits2_pos c) = 53 ->
  SFleb x1 x2 = true ->
  SFleb (SF64mul x1 (S754_finite false c ec)) (SF64mul x2 (S754_finite false c ec)) = true.
Proof.
  intros Hv1 Hv2 Hc Hle.
  destruct x1 as [s1|s1| |s1 m1 e1], x2 as [s2|s2| |s2 m2 e2];
    try discriminate Hle; unfold SF64mul; cbn [SFmul].
  - destruct s1, s2; reflexivity.
  - destruct s1, s2; try discriminate Hle; reflexivity.
  - destruct s2; [destruct s1; discriminate Hle|]. cbn [xorb].
    pose proof (binary_round_aux_sign false (Z.pos (m2 * c)) (e2 + ec) loc_Exact ltac:(lia)) as Hs.
    destruct (binary_round_aux prec emax false _ _ loc_Exact) as [s|s| |s m e];
      try contradiction; subst s; destruct s1; reflexivity.
  - destruct s1, s2; try discriminate Hle; reflexivity.
  - destruct s1, s2; try discriminate Hle; reflexivity.
  - destruct s1; [|discriminate Hle]. cbn [xorb].
    pose proof (binary_round_aux_sign (xorb s2 false) (Z.pos (m2 * c)) (e2 + ec) loc_Exact
                  ltac:(lia)) as Hs.
    destruct (binary_round_aux prec emax (xorb s2 false) _ _ loc_Exact) as [s|s| |s m e];
      try contradiction; destruct s; reflexivity.
  - destruct s1; [|destruct s2; discriminate Hle]. cbn [xorb].
    pose proof (binary_round_aux_sign true (Z.pos (m1 * c)) (e1 + ec) loc_Exact ltac:(lia)) as Hs.
    destruct (binary_round_aux prec emax true _ _ loc_Exact) as [s|s| |s m e];
      try contradiction; subst s; destruct s2; reflexivity.
  - destruct s2; [destruct s1; discriminate Hle|]. cbn [xorb].
    pose proof (binary_round_aux_sign (xorb s1 false) (Z.pos (m1 * c)) (e1 + ec) loc_Exact
                  ltac:(lia)) as Hs.
    destruct (binary_round_aux prec emax (xorb s1 false) _ _ loc_Exact) as [s|s| |s m e];
      try contradiction; destruct s; reflexivity.
  - destruct (product_normal (xorb s1 false) m1 c e1 ec Hc) as [Hn1 Hr1].
    destruct (product_normal (xorb s2 false) m2 c e2 ec Hc) as [Hn2 Hr2].
    cbv zeta in Hn1, Hn2, Hr1, Hr2. rewrite Hr1, Hr2.
    destruct s1, s2; cbn [xorb] in Hr1, Hr2 |- *; try discriminate Hle.
    + (* both negative *)
      apply SFleb_finite_neg in Hle.
      assert (Hle' : e2 < e1 \/ e2 = e1 /\ Z.pos m2 <= Z.pos m1) by lia.
      pose proof (valid_order m2 e2 m1 e1 Hv2 Hv1 Hle') as Hval.
      apply finish_le_neg.
      * apply (rne_bounds_nonneg (Z.pos (m2 * c))); [lia|exact Hn2].
      * apply (round_mono _ _ _ _ (Z.min e2 e1 + ec)); try lia; try assumption.
        replace (e2 + ec - (Z.min e2 e1 + ec)) with (e2 - Z.min e2 e1) by lia.
        replace (e1 + ec - (Z.min e2 e1 + ec)) with (e1 - Z.min e2 e1) by lia.
        rewrite !Pos2Z.inj_mul. nia.
    + (* negative below positive *)
      pose proof (binary_round_aux_sign true (Z.pos (m1 * c)) (e1 + ec) loc_Exact ltac:(lia)) as Ha.
      pose proof (binary_round_aux_sign false (Z.pos (m2 * c)) (e2 + ec) loc_Exact ltac:(lia)) as Hb.
      rewrite Hr1 in Ha. rewrite Hr2 in Hb.
      destruct (finish true _) as [s|s| |s m e]; try contradiction; subst s;
        destruct (finish false _) as [s|s| |s m' e']; try contradiction; subst s; reflexivity.
    + (* both positive *)
      apply SFleb_finite_pos in Hle.
      pose proof (valid_order m1 e1 m2 e2 Hv1 Hv2 Hle) as Hval.
      apply finish_le_pos.
      * apply (rne_bounds_nonneg (Z.pos (m1 * c))); [lia|exact Hn1].
      * apply (round_mono _ _ _ _ (Z.min e1 e2 + ec)); try lia; try assumption.
        replace (e1 + ec - (Z.min e1 e2 + ec)) with (e1 - Z.min e1 e2) by lia.
        replace (e2 + ec - (Z.min e1 e2 + ec)) with (e2 - Z.min e1 e2) by lia.
        rewrite !Pos2Z.inj_mul. nia.
Qed.

End OrderFacts.

Module MonotoneFacts.
Import Str NumStr JS Decision DecisionSpec FloatFacts DecisionFacts OrderFacts.

(** The eligible value grows with the collateral value. *)
Lemma eligible_mono (ty : string) (h v1 v2 : number) :
  In (ty, h) haircut_table ->
  le v1 v2 = true ->
  le (v1 * (1 - h))%float (v2 * (1 - h))%float = true.
Proof.
  intros Hin Hle. destruct (retained_share ty h Hin) as (mc & ec & Hc & Hd & _).
  unfold le in *. rewrite leb_spec in *. rewrite !mul_spec, Hc.
  apply SFmul_mono; auto using Prim2SF_valid.
Qed.

Lemma ge_mono (e1 e2 a : number) :
  le e1 e2 = true -> ge e1 a = true -> ge e2 a = true.
Proof.
  unfold le, ge. rewrite !leb_spec. intros H12 Ha. exact (SFleb_trans _ _ _ Ha H12).
Qed.

(** C8. The decision is monotone in the collateral value: for a collateral
    type of the haircut table, any LC amount and collateral values
    [v1 <= v2], the decision for [v2] is not below the decision for [v1] in
    the order NO < REVIEW < YES; YES stays YES, and REVIEW does not become
    NO. *)
Theorem C8_decision_monotone (ty : string) (h v1 v2 a : number) :
  In (ty, h) haircut_table ->
  le v1 v2 = true ->
  (rank (decision (lcDecision ty v1 a)) <= rank (decision (lcDecision ty v2 a)))%nat
  /\ (decision (lcDecision ty v1 a) = YES -> decision (lcDecision ty v2 a) = YES)
  /\ (decision (lcDecision ty v1 a) = REVIEW -> decision (lcDecision ty v2 a) <> NO).
Proof.
  intros Hin Hle.
  rewrite (lcDecision_known ty h v1 a (known_type ty h Hin)).
  rewrite (lcDecision_known ty h v2 a (known_type ty h Hin)).
  cbn zeta. cbn [decision].
  pose proof (eligible_mono ty h v1 v2 Hin Hle) as He.
  pose proof (ge_mono _ _ a He) as Hy.
  pose proof (ge_mono _ _ (a * 0.75)%float He) as Hr.
  destruct (ge (v1 * (1 - h))%float a).
  - rewrite (Hy eq_refl). cbn [rank]. repeat split; [lia|discriminate].
  - destruct (ge (v1 * (1 - h))%float (a * 0.75)%float).
    + rewrite (Hr eq_refl).
      destruct (ge (v2 * (1 - h))%float a); cbn [rank];
        repeat split; try lia; discriminate.
    + destruct (ge (v2 * (1 - h))%float a); [|destruct (ge (v2 * (1 - h))%float _)];
        cbn [rank]; repeat split; try lia; discriminate.
Qed.

Lemma C8_decision_monotone_witness :
  In ("PROPERTY", 0.40%float) haircut_table
  /\ le 1000000%float 2000000%float = true
  /\ (rank (decision (lcDecision "PROPERTY" 1000000%float 900000%float))
      <= rank (decision (lcDecision "PROPERTY" 2000000%float 900000%float)))%nat.
Proof.
  split; [do 5 right; left; reflexivity|].
  split; [reflexivity|].
  apply (C8_decision_monotone "PROPERTY" 0.40%float 1000000%float 2000000%float 900000%float);
    [do 5 right; left; reflexivity | reflexivity].
Defined.

End MonotoneFacts.

(* ===================================================================== *)
(** * The shape of rounded results *)
(* ===================================================================== *)

Module ShapeFacts.
Import RoundSpec RoundTheory FloatFacts RoundFacts OrderFacts.
#[local] Open Scope Z_scope.






(** ** Normalisation *)






End ShapeFacts.

(* ===================================================================== *)
(** * Division, floor and remainder make numbers smaller *)
(* ===================================================================== *)

Module QuotientFacts.
Import RoundSpec RoundTheory FloatFacts RoundFacts OrderFacts ShapeFacts.
#[local] Open Scope Z_scope.





End QuotientFacts.

(* ===================================================================== *)
(** * The amount in words *)
(* ===================================================================== *)

Module SmallerFacts.
Import RoundSpec RoundTheory FloatFacts RoundFacts OrderFacts.
Import ShapeFacts QuotientFacts.
#[local] Open Scope Z_scope.

(** ** Numbers that get smaller *)








End SmallerFacts.

(* ===================================================================== *)
(** * The amount in words *)
(* ===================================================================== *)

Module WordsFacts.
Import Str NumStr JS Words RoundSpec RoundTheory FloatFacts RoundFacts OrderFacts.
Import ShapeFacts QuotientFacts SmallerFacts.
#[local] Open Scope float_scope.

(** ** The recursion ends *)




(** ** Negative amounts *)











End WordsFacts.

